(** * CulturIA: the daily trivia generator ([generar_trivia.py])

    A shallow embedding of the script and of the parts of the Python
    runtime it leans on, followed by the properties of its specification.

    Conventions of the embedding.
    - A Python [str] is the list of its code points ([pystr]).
    - A Python value that can come out of [json.loads] is a [json]; a
      [dict] keeps its insertion order and has each key once.
    - A call that can raise returns a [result]; the exceptions the script
      can meet are the constructors of [exc].
    - [float] values are kept as the literal they were read from: binary64
      rounding is not part of this development.  The three places where
      the value of a float would be needed (serialising it, adding one to
      it, formatting it) answer [OutsideModel], so that nothing is proved
      about them.
    - The interpreter is taken without its recursion limit and without
      its limit on the number of digits of an integer.
    - The history file is text: the UTF-8 codec is the identity on text
      without surrogate code points and refuses the rest when writing. *)

From Stdlib Require Import String Ascii.
From Stdlib Require Import List ZArith NArith Lia Bool.
From Stdlib Require DecimalN DecimalPos DecimalFacts.
Import ListNotations.

(* ================================================================== *)
(** * Python strings *)
(* ================================================================== *)

Definition pystr := list N.

Local Open Scope N_scope.

(** Decoding of the UTF-8 bytes of a literal of this file into code
    points. *)
Fixpoint utf8_decode (bs : list N) : pystr :=
  match bs with
  | [] => []
  | b :: r =>
      if b <? 128 then b :: utf8_decode r
      else if b <? 224 then
        match r with
        | b1 :: r1 => ((b - 192) * 64 + (b1 - 128)) :: utf8_decode r1
        | _ => []
        end
      else if b <? 240 then
        match r with
        | b1 :: b2 :: r2 =>
            ((b - 224) * 4096 + (b1 - 128) * 64 + (b2 - 128)) :: utf8_decode r2
        | _ => []
        end
      else
        match r with
        | b1 :: b2 :: b3 :: r3 =>
            ((b - 240) * 262144 + (b1 - 128) * 4096 + (b2 - 128) * 64 + (b3 - 128))
              :: utf8_decode r3
        | _ => []
        end
  end.

Definition lit (s : string) : pystr :=
  utf8_decode (map N_of_ascii (list_ascii_of_string s)).

(** A literal in which every apostrophe stands for a double quote. *)
Definition dq (s : string) : pystr :=
  map (fun c => if c =? 39 then 34 else c) (lit s).

Fixpoint pystr_eqb (a b : pystr) : bool :=
  match a, b with
  | [], [] => true
  | x :: a', y :: b' => (x =? y) && pystr_eqb a' b'
  | _, _ => false
  end.

(** [s.startswith(prefix)] *)
Fixpoint startswith (pre s : pystr) : bool :=
  match pre, s with
  | [], _ => true
  | p :: pre', c :: s' => (p =? c) && startswith pre' s'
  | _ :: _, [] => false
  end.

(** [sub in s] for two strings *)
Fixpoint str_contains (sub s : pystr) : bool :=
  startswith sub s ||
  match s with
  | [] => false
  | _ :: s' => str_contains sub s'
  end.

(** [str.isspace] of one character, the table of CPython's
    [_PyUnicode_IsWhitespace]. *)
Definition py_isspace (c : N) : bool :=
  ((9 <=? c) && (c <=? 13)) || ((28 <=? c) && (c <=? 32)) ||
  (c =? 133) || (c =? 160) || (c =? 5760) ||
  ((8192 <=? c) && (c <=? 8202)) || (c =? 8232) || (c =? 8233) ||
  (c =? 8239) || (c =? 8287) || (c =? 12288).

Fixpoint lstrip (s : pystr) : pystr :=
  match s with
  | c :: r => if py_isspace c then lstrip r else s
  | [] => []
  end.

Definition rstrip (s : pystr) : pystr := rev (lstrip (rev s)).

(** [s.strip()] *)
Definition strip (s : pystr) : pystr := rstrip (lstrip s).

(** [s.split(sep)] for a separator of one character *)
Fixpoint split (sep : N) (s : pystr) : list pystr :=
  match s with
  | [] => [[]]
  | c :: r =>
      if c =? sep then [] :: split sep r
      else match split sep r with
           | l :: ls => (c :: l) :: ls
           | [] => [[c]]
           end
  end.

(** [sep.join(parts)] *)
Fixpoint join (sep : pystr) (parts : list pystr) : pystr :=
  match parts with
  | [] => []
  | [l] => l
  | l :: ls => l ++ sep ++ join sep ls
  end.

(** ** Decimal numerals *)

Fixpoint uint_codes (u : Decimal.uint) : pystr :=
  match u with
  | Decimal.Nil => []
  | Decimal.D0 u => 48 :: uint_codes u
  | Decimal.D1 u => 49 :: uint_codes u
  | Decimal.D2 u => 50 :: uint_codes u
  | Decimal.D3 u => 51 :: uint_codes u
  | Decimal.D4 u => 52 :: uint_codes u
  | Decimal.D5 u => 53 :: uint_codes u
  | Decimal.D6 u => 54 :: uint_codes u
  | Decimal.D7 u => 55 :: uint_codes u
  | Decimal.D8 u => 56 :: uint_codes u
  | Decimal.D9 u => 57 :: uint_codes u
  end.

Definition is_digit (c : N) : bool := (48 <=? c) && (c <=? 57).

Definition digit_cons (c : N) (u : Decimal.uint) : Decimal.uint :=
  if c =? 48 then Decimal.D0 u else if c =? 49 then Decimal.D1 u
  else if c =? 50 then Decimal.D2 u else if c =? 51 then Decimal.D3 u
  else if c =? 52 then Decimal.D4 u else if c =? 53 then Decimal.D5 u
  else if c =? 54 then Decimal.D6 u else if c =? 55 then Decimal.D7 u
  else if c =? 56 then Decimal.D8 u else Decimal.D9 u.

Fixpoint codes_uint (s : pystr) : Decimal.uint :=
  match s with
  | [] => Decimal.Nil
  | c :: r => digit_cons c (codes_uint r)
  end.

(** [str(n)] of a natural number *)
Definition nat_str (n : N) : pystr := uint_codes (N.to_uint n).

(** [str(z)] of an [int] *)
Definition int_str (z : Z) : pystr :=
  match z with
  | Zneg p => 45 :: nat_str (Npos p)
  | _ => nat_str (Z.to_N z)
  end.

(** [int(s)] of an optional minus sign and a run of digits *)
Definition int_of_digits (neg : bool) (digits : pystr) : Z :=
  let n := Z.of_N (N.of_uint (codes_uint digits)) in
  if neg then (- n)%Z else n.

(* ================================================================== *)
(** * Exceptions and results *)
(* ================================================================== *)

Inductive exc : Type :=
| TypeError
| KeyError
| AttributeError
| JSONDecodeError
| AssertionError (msg : pystr)
| UnicodeEncodeError
| IndexError
| SystemExit (code : Z)
| APIError
| OutsideModel.

Inductive result (A : Type) : Type :=
| Ok (a : A)
| Raise (e : exc).

Arguments Ok {A} a.
Arguments Raise {A} e.

Definition bind {A B} (m : result A) (k : A -> result B) : result B :=
  match m with
  | Ok a => k a
  | Raise e => Raise e
  end.

Notation "x <- m ;; k" := (bind m (fun x => k))
  (at level 61, m at next level, right associativity).

(** [assert cond, msg] *)
Definition py_assert (cond : bool) (msg : pystr) : result unit :=
  if cond then Ok tt else Raise (AssertionError msg).

(* ================================================================== *)
(** * JSON values *)
(* ================================================================== *)

Unset Elimination Schemes.

Inductive json : Type :=
| JNull
| JBool (b : bool)
| JInt (n : Z)
| JFloat (literal : pystr)
| JStr (s : pystr)
| JList (items : list json)
| JDict (entries : list (pystr * json)).

Set Elimination Schemes.

(** Induction on a value, its elements and the values of its members. *)
Definition json_ind (P : json -> Prop)
  (HNull : P JNull) (HBool : forall b, P (JBool b)) (HInt : forall n, P (JInt n))
  (HFloat : forall l, P (JFloat l)) (HStr : forall s, P (JStr s))
  (HList : forall items, Forall P items -> P (JList items))
  (HDict : forall entries, Forall (fun kv => P (snd kv)) entries -> P (JDict entries))
  : forall v, P v :=
  fix go (v : json) : P v :=
    match v with
    | JNull => HNull
    | JBool b => HBool b
    | JInt n => HInt n
    | JFloat l => HFloat l
    | JStr s => HStr s
    | JList items =>
        HList items
          ((fix all (l : list json) : Forall P l :=
              match l with
              | [] => Forall_nil P
              | x :: l' => Forall_cons x (go x) (all l')
              end) items)
    | JDict entries =>
        HDict entries
          ((fix all (l : list (pystr * json)) : Forall (fun kv => P (snd kv)) l :=
              match l with
              | [] => Forall_nil _
              | kv :: l' => Forall_cons kv (go (snd kv)) (all l')
              end) entries)
    end.

Fixpoint dict_get (d : list (pystr * json)) (k : pystr) : option json :=
  match d with
  | [] => None
  | (k', v) :: d' => if pystr_eqb k' k then Some v else dict_get d' k
  end.

(** [d[k] = v]: an existing key keeps its place. *)
Fixpoint dict_set (d : list (pystr * json)) (k : pystr) (v : json)
  : list (pystr * json) :=
  match d with
  | [] => [(k, v)]
  | (k', v') :: d' =>
      if pystr_eqb k' k then (k', v) :: d' else (k', v') :: dict_set d' k v
  end.

(** [dict(pairs)] *)
Definition dict_of_pairs (pairs : list (pystr * json)) : list (pystr * json) :=
  fold_left (fun d kv => dict_set d (fst kv) (snd kv)) pairs [].

(* ================================================================== *)
(** * [json.loads]: the decoder of the standard library *)
(* ================================================================== *)

(** The four characters of [WHITESPACE_STR]. *)
Definition is_ws (c : N) : bool :=
  (c =? 32) || (c =? 9) || (c =? 10) || (c =? 13).

Fixpoint skip_ws (s : pystr) : pystr :=
  match s with
  | c :: r => if is_ws c then skip_ws r else s
  | [] => []
  end.

Definition hex_val (c : N) : option N :=
  if (48 <=? c) && (c <=? 57) then Some (c - 48)
  else if (65 <=? c) && (c <=? 70) then Some (c - 55)
  else if (97 <=? c) && (c <=? 102) then Some (c - 87)
  else None.

(** [_decode_uXXXX]: four hexadecimal digits *)
Definition hex4 (a b c d : N) : option N :=
  match hex_val a, hex_val b, hex_val c, hex_val d with
  | Some x, Some y, Some z, Some t => Some (((x * 16 + y) * 16 + z) * 16 + t)
  | _, _, _, _ => None
  end.

Definition is_high_surrogate (c : N) : bool := (55296 <=? c) && (c <=? 56319).
Definition is_low_surrogate (c : N) : bool := (56320 <=? c) && (c <=? 57343).
Definition is_surrogate (c : N) : bool := (55296 <=? c) && (c <=? 57343).

Definition join_surrogates (hi lo : N) : N :=
  65536 + ((hi - 55296) * 1024 + (lo - 56320)).

(** The table [BACKSLASH] of the one-letter escapes. *)
Definition unescape (e : N) : option N :=
  if e =? 34 then Some 34 else if e =? 92 then Some 92
  else if e =? 47 then Some 47 else if e =? 98 then Some 8
  else if e =? 102 then Some 12 else if e =? 110 then Some 10
  else if e =? 114 then Some 13 else if e =? 116 then Some 9
  else None.

Definition cons_char (c : N) (r : option (pystr * pystr)) : option (pystr * pystr) :=
  match r with
  | Some (s, rest) => Some (c :: s, rest)
  | None => None
  end.

(** [scanstring], strict: the text after an opening quote, up to the
    closing one.  [None] is a [JSONDecodeError]. *)
Fixpoint scanstring (s : pystr) : option (pystr * pystr) :=
  match s with
  | [] => None
  | c :: r =>
      if c =? 34 then Some ([], r)
      else if c =? 92 then
        match r with
        | [] => None
        | e :: r1 =>
            if e =? 117 then
              match r1 with
              | h1 :: h2 :: h3 :: h4 :: r2 =>
                  match hex4 h1 h2 h3 h4 with
                  | None => None
                  | Some uni =>
                      if is_high_surrogate uni then
                        match r2 with
                        | bs :: u :: l1 :: l2 :: l3 :: l4 :: r3 =>
                            if (bs =? 92) && (u =? 117) then
                              match hex4 l1 l2 l3 l4 with
                              | None => None
                              | Some uni2 =>
                                  if is_low_surrogate uni2
                                  then cons_char (join_surrogates uni uni2) (scanstring r3)
                                  else cons_char uni (scanstring r2)
                              end
                            else cons_char uni (scanstring r2)
                        | _ => cons_char uni (scanstring r2)
                        end
                      else cons_char uni (scanstring r2)
                  end
              | _ => None
              end
            else
              match unescape e with
              | Some ch => cons_char ch (scanstring r1)
              | None => None
              end
        end
      else if c <? 32 then None
      else cons_char c (scanstring r)
  end.

(** The longest run of decimal digits at the front of a text. *)
Fixpoint span_digits (s : pystr) : pystr * pystr :=
  match s with
  | c :: r =>
      if is_digit c then let (ds, rest) := span_digits r in (c :: ds, rest)
      else ([], s)
  | [] => ([], [])
  end.

(** The integer part of [NUMBER_RE]: [0|[1-9][0-9]*]. *)
Definition match_int_part (s : pystr) : option (pystr * pystr) :=
  match s with
  | c :: r =>
      if c =? 48 then Some ([48], r)
      else if is_digit c then let (ds, rest) := span_digits r in Some (c :: ds, rest)
      else None
  | [] => None
  end.

(** The optional fraction of [NUMBER_RE]: a dot and at least one digit. *)
Definition match_frac (s : pystr) : pystr * pystr :=
  match s with
  | c :: r =>
      if c =? 46 then
        match span_digits r with
        | ([], _) => ([], s)
        | (ds, rest) => (c :: ds, rest)
        end
      else ([], s)
  | [] => ([], [])
  end.

(** The optional exponent of [NUMBER_RE]. *)
Definition match_exp (s : pystr) : pystr * pystr :=
  match s with
  | c :: r =>
      if (c =? 101) || (c =? 69) then
        match r with
        | sg :: r1 =>
            if (sg =? 43) || (sg =? 45) then
              match span_digits r1 with
              | ([], _) => ([], s)
              | (ds, rest) => (c :: sg :: ds, rest)
              end
            else
              match span_digits r with
              | ([], _) => ([], s)
              | (ds, rest) => (c :: ds, rest)
              end
        | [] => ([], s)
        end
      else ([], s)
  | [] => ([], [])
  end.

(** The optional minus sign of [NUMBER_RE]. *)
Definition split_sign (s : pystr) : bool * pystr :=
  match s with
  | c :: r => if c =? 45 then (true, r) else (false, s)
  | [] => (false, s)
  end.

(** [match_number] and the choice between [int] and [float]. *)
Definition match_number (s : pystr) : option (json * pystr) :=
  let (neg, s1) := split_sign s in
  match match_int_part s1 with
  | None => None
  | Some (ip, s2) =>
      let (frac, s3) := match_frac s2 in
      let (ex, s4) := match_exp s3 in
      match frac, ex with
      | [], [] => Some (JInt (int_of_digits neg ip), s4)
      | _, _ => Some (JFloat ((if neg then [45] else []) ++ ip ++ frac ++ ex), s4)
      end
  end.

Definition kw_null : pystr := Eval vm_compute in lit "null".
Definition kw_true : pystr := Eval vm_compute in lit "true".
Definition kw_false : pystr := Eval vm_compute in lit "false".
Definition kw_NaN : pystr := Eval vm_compute in lit "NaN".
Definition kw_Infinity : pystr := Eval vm_compute in lit "Infinity".
Definition kw_minus_Infinity : pystr := Eval vm_compute in lit "-Infinity".

(** The outcome of a scan that runs on fuel. *)
Inductive scan (A : Type) : Type :=
| NoFuel
| Bad
| Got (a : A) (rest : pystr).

Arguments NoFuel {A}.
Arguments Bad {A}.
Arguments Got {A} a rest.

(** The constants and numbers of [scan_once]. *)
Definition scan_atom (s : pystr) : scan json :=
  if startswith kw_null s then Got JNull (skipn 4 s)
  else if startswith kw_true s then Got (JBool true) (skipn 4 s)
  else if startswith kw_false s then Got (JBool false) (skipn 5 s)
  else match match_number s with
       | Some (v, rest) => Got v rest
       | None =>
           if startswith kw_NaN s then Got (JFloat kw_NaN) (skipn 3 s)
           else if startswith kw_Infinity s then Got (JFloat kw_Infinity) (skipn 8 s)
           else if startswith kw_minus_Infinity s
                then Got (JFloat kw_minus_Infinity) (skipn 9 s)
           else Bad
       end.

(** [scan_once], with [JSONArray] and [JSONObject]: [scan_items] reads the
    elements of an array from the first one on, [scan_members] the members
    of an object from after the opening quote of a key on. *)
Fixpoint scan_once (fuel : nat) (s : pystr) : scan json :=
  match fuel with
  | O => NoFuel
  | S f =>
      match s with
      | [] => Bad
      | c :: r =>
          if c =? 34 then
            match scanstring r with
            | Some (str, rest) => Got (JStr str) rest
            | None => Bad
            end
          else if c =? 123 then
            match skip_ws r with
            | c1 :: r1 =>
                if c1 =? 125 then Got (JDict []) r1
                else if c1 =? 34 then
                  match scan_members f r1 with
                  | Got pairs rest => Got (JDict (dict_of_pairs pairs)) rest
                  | Bad => Bad
                  | NoFuel => NoFuel
                  end
                else Bad
            | [] => Bad
            end
          else if c =? 91 then
            match skip_ws r with
            | c1 :: r1 =>
                if c1 =? 93 then Got (JList []) r1
                else
                  match scan_items f (c1 :: r1) with
                  | Got items rest => Got (JList items) rest
                  | Bad => Bad
                  | NoFuel => NoFuel
                  end
            | [] => Bad
            end
          else scan_atom s
      end
  end

with scan_items (fuel : nat) (s : pystr) : scan (list json) :=
  match fuel with
  | O => NoFuel
  | S f =>
      match scan_once f s with
      | Got v r =>
          match skip_ws r with
          | c :: r1 =>
              if c =? 93 then Got [v] r1
              else if c =? 44 then
                match scan_items f (skip_ws r1) with
                | Got vs rest => Got (v :: vs) rest
                | Bad => Bad
                | NoFuel => NoFuel
                end
              else Bad
          | [] => Bad
          end
      | Bad => Bad
      | NoFuel => NoFuel
      end
  end

with scan_members (fuel : nat) (s : pystr) : scan (list (pystr * json)) :=
  match fuel with
  | O => NoFuel
  | S f =>
      match scanstring s with
      | None => Bad
      | Some (key, r) =>
          match skip_ws r with
          | c :: r1 =>
              if c =? 58 then
                match scan_once f (skip_ws r1) with
                | Got v r2 =>
                    match skip_ws r2 with
                    | c2 :: r3 =>
                        if c2 =? 125 then Got [(key, v)] r3
                        else if c2 =? 44 then
                          match skip_ws r3 with
                          | c3 :: r4 =>
                              if c3 =? 34 then
                                match scan_members f r4 with
                                | Got ms rest => Got ((key, v) :: ms) rest
                                | Bad => Bad
                                | NoFuel => NoFuel
                                end
                              else Bad
                          | [] => Bad
                          end
                        else Bad
                    | [] => Bad
                    end
                | Bad => Bad
                | NoFuel => NoFuel
                end
              else Bad
          | [] => Bad
          end
      end
  end.

(** Fuel that never runs out on a text (lemma [scan_fuel]). *)
Definition loads_fuel (s : pystr) : nat := 2 * List.length s + 2.

(** [json.loads(s)]: leading blanks, one value, trailing blanks, the end. *)
Definition json_loads (s : pystr) : result json :=
  match scan_once (loads_fuel s) (skip_ws s) with
  | Got v rest =>
      match skip_ws rest with
      | [] => Ok v
      | _ :: _ => Raise JSONDecodeError
      end
  | Bad => Raise JSONDecodeError
  | NoFuel => Raise OutsideModel
  end.


(* ================================================================== *)
(** * [json.dump(data, f, ensure_ascii=False, indent=2)] *)
(* ================================================================== *)

Definition hex_digit (n : N) : N := if n <? 10 then 48 + n else 87 + n.

(** [ESCAPE_DCT]: what [ensure_ascii=False] still escapes. *)
Definition escape_char (c : N) : pystr :=
  if c =? 34 then [92; 34]
  else if c =? 92 then [92; 92]
  else if c =? 10 then [92; 110]
  else if c =? 13 then [92; 114]
  else if c =? 9 then [92; 116]
  else if c =? 8 then [92; 98]
  else if c =? 12 then [92; 102]
  else if c <? 32 then [92; 117; 48; 48; hex_digit (c / 16); hex_digit (c mod 16)]
  else [c].

(** [encode_basestring] *)
Definition encode_basestring (s : pystr) : pystr :=
  34 :: flat_map escape_char s ++ [34].

Definition is_container (v : json) : bool :=
  match v with
  | JList _ | JDict _ => true
  | _ => false
  end.

(** The text of a value that is neither a list nor a dict. *)
Definition encode_scalar (v : json) : pystr :=
  match v with
  | JNull => kw_null
  | JBool true => kw_true
  | JBool false => kw_false
  | JInt n => int_str n
  | JFloat l => l
  | JStr s => encode_basestring s
  | JList _ | JDict _ => []
  end.

(** ['\n' + ' ' * (2 * level)] *)
Definition newline_indent (level : nat) : pystr :=
  10 :: repeat 32 (2 * level)%nat.

Arguments newline_indent : simpl never.

Section Chunks.
(** The encoder of the next level and that level's line break. *)
Variable enc : json -> list pystr.
Variable ni : pystr.

Definition value_chunks (v : json) : list pystr :=
  if is_container v then enc v else [encode_scalar v].

(** [_iterencode_list] yields a scalar element together with what
    separates it from the element before. *)
Definition item_chunks (buf : pystr) (v : json) : list pystr :=
  if is_container v then buf :: enc v else [buf ++ encode_scalar v].

Fixpoint list_chunks (first : bool) (l : list json) : list pystr :=
  match l with
  | [] => []
  | v :: l' =>
      item_chunks ((if first then 91 else 44) :: ni) v ++ list_chunks false l'
  end.

Fixpoint dict_chunks (first : bool) (l : list (pystr * json)) : list pystr :=
  match l with
  | [] => []
  | (k, v) :: l' =>
      (if first then [] else [44 :: ni])
        ++ [encode_basestring k; [58; 32]] ++ value_chunks v
        ++ dict_chunks false l'
  end.
End Chunks.

(** [_iterencode]: the chunks [json.dump] writes one by one. *)
Fixpoint iterencode (level : nat) (o : json) {struct o} : list pystr :=
  match o with
  | JList [] => [[91; 93]]
  | JList items =>
      list_chunks (iterencode (S level)) (newline_indent (S level)) true items
        ++ [newline_indent level; [93]]
  | JDict [] => [[123; 125]]
  | JDict entries =>
      [123] :: newline_indent (S level)
        :: dict_chunks (iterencode (S level)) (newline_indent (S level)) true entries
        ++ [newline_indent level; [125]]
  | _ => [encode_scalar o]
  end.

(** [json.dumps(data, ensure_ascii=False, indent=2)] *)
Definition json_dumps (data : json) : pystr := concat (iterencode 0 data).

Fixpoint float_free (v : json) : bool :=
  match v with
  | JFloat _ => false
  | JList items => forallb float_free items
  | JDict entries => forallb (fun kv => float_free (snd kv)) entries
  | _ => true
  end.

(** A text file opened for writing with [encoding="utf-8"]: each chunk is
    encoded when written, and a chunk with a surrogate is refused. *)
Fixpoint write_chunks (chunks : list pystr) (written : pystr)
  : result unit * pystr :=
  match chunks with
  | [] => (Ok tt, written)
  | c :: cs =>
      if existsb is_surrogate c then (Raise UnicodeEncodeError, written)
      else write_chunks cs (written ++ c)
  end.

(* ================================================================== *)
(** * The operations of the interpreter the script applies to values *)
(* ================================================================== *)

(** [len(v)] *)
Definition py_len (v : json) : result nat :=
  match v with
  | JStr s => Ok (List.length s)
  | JList l => Ok (List.length l)
  | JDict d => Ok (List.length d)
  | _ => Raise TypeError
  end.

(** The truth value of [v] in a condition. *)
Definition py_truthy (v : json) : result bool :=
  match v with
  | JNull => Ok false
  | JBool b => Ok b
  | JInt n => Ok (negb (n =? 0)%Z)
  | JFloat _ => Raise OutsideModel
  | JStr s => Ok (negb (Nat.eqb (List.length s) 0))
  | JList l => Ok (negb (Nat.eqb (List.length l) 0))
  | JDict d => Ok (negb (Nat.eqb (List.length d) 0))
  end.

(** [v == s] for a string [s] *)
Definition eq_str (v : json) (s : pystr) : bool :=
  match v with
  | JStr s' => pystr_eqb s' s
  | _ => false
  end.

(** [key in v] for a string [key] *)
Definition py_contains (key : pystr) (v : json) : result bool :=
  match v with
  | JDict d => Ok (match dict_get d key with Some _ => true | None => false end)
  | JList l => Ok (existsb (fun x => eq_str x key) l)
  | JStr s => Ok (str_contains key s)
  | _ => Raise TypeError
  end.

(** [v[key]] for a string [key] *)
Definition py_getitem (v : json) (key : pystr) : result json :=
  match v with
  | JDict d =>
      match dict_get d key with
      | Some x => Ok x
      | None => Raise KeyError
      end
  | _ => Raise TypeError
  end.

(** [v[0]] *)
Definition py_first (v : json) : result json :=
  match v with
  | JList (x :: _) => Ok x
  | JList [] => Raise IndexError
  | JStr (c :: _) => Ok (JStr [c])
  | JStr [] => Raise IndexError
  | JDict _ => Raise KeyError
  | _ => Raise TypeError
  end.

(** [v.get(key, default)] *)
Definition py_get (v : json) (key : pystr) (default : json) : result json :=
  match v with
  | JDict d =>
      Ok (match dict_get d key with Some x => x | None => default end)
  | _ => Raise AttributeError
  end.

(** The values [for x in v] goes through. *)
Definition py_iter (v : json) : result (list json) :=
  match v with
  | JList l => Ok l
  | JDict d => Ok (map (fun kv => JStr (fst kv)) d)
  | JStr s => Ok (map (fun c => JStr [c]) s)
  | _ => Raise TypeError
  end.

(** [isinstance(v, int)]: [bool] is a subclass of [int]. *)
Definition isinstance_int (v : json) : bool :=
  match v with
  | JInt _ | JBool _ => true
  | _ => false
  end.

(** The number an [int] or a [bool] stands for in a comparison or a sum. *)
Definition int_value (v : json) : result Z :=
  match v with
  | JInt n => Ok n
  | JBool b => Ok (if b then 1 else 0)%Z
  | JFloat _ => Raise OutsideModel
  | _ => Raise TypeError
  end.

(** [v + 1] *)
Definition py_add_one (v : json) : result Z :=
  n <- int_value v ;; Ok (n + 1)%Z.

(** [str(v)] inside an f-string, for the values whose text this
    development writes out. *)
Definition py_format (v : json) : result pystr :=
  match v with
  | JStr s => Ok s
  | JInt n => Ok (int_str n)
  | JBool true => Ok (lit "True")
  | JBool false => Ok (lit "False")
  | JNull => Ok (lit "None")
  | JFloat _ | JList _ | JDict _ => Raise OutsideModel
  end.

Fixpoint mapM {A B} (f : A -> result B) (l : list A) : result (list B) :=
  match l with
  | [] => Ok []
  | a :: l' => b <- f a ;; bs <- mapM f l' ;; Ok (b :: bs)
  end.

(* ================================================================== *)
(** * The script *)
(* ================================================================== *)

Definition MAX_CONTEXT_QUESTIONS : Z := 60.

(** The world the script runs in: the [GROQ_API_KEY] variable, the content
    of [historial.json] (when the file exists), the clock in seconds since
    the epoch, the remote model, and the prompts it was sent so far. *)
Inductive reply : Type :=
| Content (text : option pystr)
| Failure (e : exc).

Record World : Type := {
  api_key_env : option pystr;
  historial_file : option pystr;
  clock : Z;
  groq : pystr -> reply;
  requests : list pystr
}.

(** ** [load_historial] and [save_historial] *)

Definition load_historial (file : option pystr) : result json :=
  match file with
  | Some text => json_loads text
  | None => Ok (JList [])
  end.

(** Opening with ["w"] empties the file before anything is written. *)
Definition save_historial (data : json) (file : option pystr)
  : result unit * option pystr :=
  if float_free data then
    let (r, written) := write_chunks (iterencode 0 data) [] in (r, Some written)
  else (Raise OutsideModel, file).

(** ** [get_previous_questions] *)

Definition k_preguntas : pystr := Eval vm_compute in lit "preguntas".
Definition k_pregunta : pystr := Eval vm_compute in lit "pregunta".
Definition k_opciones : pystr := Eval vm_compute in lit "opciones".
Definition k_respuesta_correcta : pystr := Eval vm_compute in lit "respuesta_correcta".
Definition k_mensaje_burla : pystr := Eval vm_compute in lit "mensaje_burla".
Definition k_dia : pystr := Eval vm_compute in lit "dia".
Definition k_fecha : pystr := Eval vm_compute in lit "fecha".

(** How the body of a loop ends: the loop goes on, or the function
    returns. *)
Inductive flow : Type :=
| Next (questions : list json)
| Return (questions : list json).

Fixpoint questions_loop (qs : list json) (questions : list json)
  (max_questions : Z) : result flow :=
  match qs with
  | [] => Ok (Next questions)
  | q :: qs' =>
      t <- py_getitem q k_pregunta ;;
      let questions := questions ++ [t] in
      if (Z.of_nat (List.length questions) >=? max_questions)%Z
      then Ok (Return questions)
      else questions_loop qs' questions max_questions
  end.

Fixpoint days_loop (days : list json) (questions : list json)
  (max_questions : Z) : result (list json) :=
  match days with
  | [] => Ok questions
  | day :: days' =>
      p <- py_get day k_preguntas (JList []) ;;
      qs <- py_iter p ;;
      f <- questions_loop qs questions max_questions ;;
      match f with
      | Return questions => Ok questions
      | Next questions => days_loop days' questions max_questions
      end
  end.

Definition get_previous_questions (historial : json) (max_questions : Z)
  : result (list json) :=
  days <- py_iter historial ;;
  days_loop days [] max_questions.

(** ** [build_prompt] *)

Definition prompt_head : pystr := Eval vm_compute in dq
"Eres un experto en cultura general española. Tu trabajo es generar preguntas de trivia divertidas, variadas y educativas sobre España.

INSTRUCCIONES ESTRICTAS:
1. Genera exactamente 3 preguntas nuevas sobre cultura general española.
2. Las preguntas deben cubrir temas variados: historia, geografía, gastronomía, arte, música, deportes, ciencia, tradiciones, lengua, etc.
3. Cada pregunta puede ser:
   - Tipo test con 3 opciones (solo 1 correcta)
   - Tipo Verdadero/Falso (2 opciones: 'Verdadero' y 'Falso')
4. Las preguntas deben ser DIFERENTES a las siguientes preguntas ya existentes:
".

Definition prompt_middle : pystr := Eval vm_compute in dq
"
5. Genera también un 'mensaje de burla' diario: una frase graciosa, ingeniosa y picante (con emojis) para mostrar al usuario que falla. Debe ser divertida pero no ofensiva. Estilo humor español.

FORMATO DE RESPUESTA (JSON estricto, sin bloques de código markdown):
{
  'preguntas': [
    {
      'pregunta': 'texto de la pregunta',
      'opciones': ['opción 1', 'opción 2', 'opción 3'],
      'respuesta_correcta': 0
    },
    {
      'pregunta': 'texto de la pregunta V/F',
      'opciones': ['Verdadero', 'Falso'],
      'respuesta_correcta': 1
    },
    {
      'pregunta': 'texto de la pregunta',
      'opciones': ['opción 1', 'opción 2', 'opción 3'],
      'respuesta_correcta': 2
    }
  ],
  'mensaje_burla': '¡Frase graciosa con emojis! 😂🥘'
}

IMPORTANTE:
- 'respuesta_correcta' es el ÍNDICE (0, 1 o 2) de la opción correcta.
- Devuelve SOLO el JSON, sin texto extra ni bloques de código.
- Las preguntas deben ser factualmente correctas.
- Este es el día #".

Definition prompt_tail : pystr := Eval vm_compute in dq
" de CulturIA.
".

Definition no_questions_yet : pystr := Eval vm_compute in lit "  (ninguna todavía)".

Definition bullet (q : pystr) : pystr := [32; 32; 45; 32] ++ q.

Definition build_prompt (previous_questions : list pystr) (dia_number : Z) : pystr :=
  let prev_q_text :=
    match previous_questions with
    | [] => no_questions_yet
    | _ :: _ => join [10] (map bullet previous_questions)
    end in
  prompt_head ++ prev_q_text ++ prompt_middle ++ int_str dia_number ++ prompt_tail.

(** ** [parse_response] *)

(** The rule an [assert] of [parse_response] checks. *)
Inductive rule : Type :=
| HasPreguntas
| HasMensajeBurla
| ThreeQuestions (received : nat)
| HasPregunta (i : nat)
| HasOpciones (i : nat)
| HasRespuestaCorrecta (i : nat)
| TwoOrThreeOptions (i : nat)
| IntegerIndex (i : nat)
| IndexInRange (i : nat).

Definition pregunta_i (i : nat) (what : pystr) : pystr :=
  lit "Pregunta " ++ nat_str (N.of_nat i) ++ what.

(** The message of the [assert] of each rule. *)
Definition message (r : rule) : pystr :=
  match r with
  | HasPreguntas => lit "Falta el campo 'preguntas'"
  | HasMensajeBurla => lit "Falta el campo 'mensaje_burla'"
  | ThreeQuestions n =>
      lit "Se esperaban 3 preguntas, se recibieron " ++ nat_str (N.of_nat n)
  | HasPregunta i => pregunta_i i (lit ": falta 'pregunta'")
  | HasOpciones i => pregunta_i i (lit ": falta 'opciones'")
  | HasRespuestaCorrecta i => pregunta_i i (lit ": falta 'respuesta_correcta'")
  | TwoOrThreeOptions i => pregunta_i i (lit ": debe tener 2 o 3 opciones")
  | IntegerIndex i => pregunta_i i (lit ": 'respuesta_correcta' debe ser un entero")
  | IndexInRange i => pregunta_i i (lit ": índice fuera de rango")
  end.

Arguments message : simpl never.

Definition check (cond : bool) (r : rule) : result unit :=
  py_assert cond (message r).

Definition fence : pystr := [96; 96; 96].

Definition is_fence_line (l : pystr) : bool := startswith fence (strip l).

(** The text handed to [json.loads]. *)
Definition clean_response (text : pystr) : pystr :=
  let cleaned := strip text in
  if startswith fence cleaned then
    let lines := split 10 cleaned in
    let lines := filter (fun l => negb (is_fence_line l)) lines in
    join [10] lines
  else cleaned.

(** The body of the loop over [enumerate(data["preguntas"])]. *)
Definition check_question (i : nat) (q : json) : result unit :=
  c <- py_contains k_pregunta q ;;
  _ <- check c (HasPregunta i) ;;
  c <- py_contains k_opciones q ;;
  _ <- check c (HasOpciones i) ;;
  c <- py_contains k_respuesta_correcta q ;;
  _ <- check c (HasRespuestaCorrecta i) ;;
  o <- py_getitem q k_opciones ;;
  n <- py_len o ;;
  _ <- check (Nat.eqb n 2 || Nat.eqb n 3) (TwoOrThreeOptions i) ;;
  r <- py_getitem q k_respuesta_correcta ;;
  _ <- check (isinstance_int r) (IntegerIndex i) ;;
  r <- py_getitem q k_respuesta_correcta ;;
  z <- int_value r ;;
  o <- py_getitem q k_opciones ;;
  n <- py_len o ;;
  check ((0 <=? z)%Z && (z <? Z.of_nat n)%Z) (IndexInRange i).

Fixpoint check_questions (i : nat) (qs : list json) : result unit :=
  match qs with
  | [] => Ok tt
  | q :: qs' => _ <- check_question i q ;; check_questions (S i) qs'
  end.

(** The asserts of [parse_response] on the decoded value. *)
Definition validate (data : json) : result json :=
  c <- py_contains k_preguntas data ;;
  _ <- check c HasPreguntas ;;
  c <- py_contains k_mensaje_burla data ;;
  _ <- check c HasMensajeBurla ;;
  p <- py_getitem data k_preguntas ;;
  n <- py_len p ;;
  _ <- check (Nat.eqb n 3) (ThreeQuestions n) ;;
  p <- py_getitem data k_preguntas ;;
  qs <- py_iter p ;;
  _ <- check_questions 0 qs ;;
  Ok data.

Definition parse_response (text : pystr) : result json :=
  data <- json_loads (clean_response text) ;;
  validate data.

(** ** The date of today in [MADRID_TZ] *)

Local Open Scope Z_scope.

(** The civil date of a number of days since 1970-01-01, in the proleptic
    Gregorian calendar of [datetime]. *)
Definition civil_from_days (days : Z) : Z * Z * Z :=
  let z := days + 719468 in
  let era := z / 146097 in
  let doe := z - era * 146097 in
  let yoe := (doe - doe / 1460 + doe / 36524 - doe / 146096) / 365 in
  let doy := doe - (365 * yoe + yoe / 4 - yoe / 100) in
  let mp := (5 * doy + 2) / 153 in
  let d := doy - (153 * mp + 2) / 5 + 1 in
  let m := if mp <? 10 then mp + 3 else mp - 9 in
  let y := yoe + era * 400 + (if m <=? 2 then 1 else 0) in
  (y, m, d).

Definition zero_pad (width : nat) (n : Z) : pystr :=
  let s := int_str n in
  repeat 48%N (width - List.length s) ++ s.

(** [MADRID_TZ = timezone(timedelta(hours=1))]: one hour ahead of UTC
    the whole year. *)
Definition MADRID_OFFSET : Z := 3600.

(** [datetime.now(MADRID_TZ).strftime("%Y-%m-%d")], for a clock in whole
    seconds and a year of four digits. *)
Definition fecha_of_clock (utc_seconds : Z) : pystr :=
  let '(y, m, d) := civil_from_days ((utc_seconds + MADRID_OFFSET) / 86400) in
  zero_pad 4 y ++ [45%N] ++ zero_pad 2 m ++ [45%N] ++ zero_pad 2 d.

(** ** [generate_trivia] *)

(** A computation in the world: it may raise, and it may change the
    world before it does. *)
Definition run (A : Type) : Type := World -> result A * World.

Definition ret {A} (a : A) : run A := fun w => (Ok a, w).

Definition lift {A} (r : result A) : run A := fun w => (r, w).

Definition bind_run {A B} (m : run A) (k : A -> run B) : run B :=
  fun w =>
    match m w with
    | (Ok a, w') => k a w'
    | (Raise e, w') => (Raise e, w')
    end.

Notation "x <~ m ;; k" := (bind_run m (fun x => k))
  (at level 61, m at next level, right associativity).

(** [os.environ.get("GROQ_API_KEY")] *)
Definition getenv_api_key : run (option pystr) := fun w => (Ok (api_key_env w), w).

Definition today : run pystr := fun w => (Ok (fecha_of_clock (clock w)), w).

Definition load_run : run json := fun w => (load_historial (historial_file w), w).

Definition set_file (w : World) (file : option pystr) : World :=
  {| api_key_env := api_key_env w; historial_file := file;
     clock := clock w; groq := groq w; requests := requests w |}.

Definition add_request (w : World) (prompt : pystr) : World :=
  {| api_key_env := api_key_env w; historial_file := historial_file w;
     clock := clock w; groq := groq w; requests := requests w ++ [prompt] |}.

Definition save_run (data : json) : run unit :=
  fun w =>
    let (r, file) := save_historial data (historial_file w) in
    (r, set_file w file).

(** [client.chat.completions.create(...)] and the [content] of the first
    choice. *)
Definition chat_completion (prompt : pystr) : run (option pystr) :=
  fun w =>
    match groq w prompt with
    | Content text => (Ok text, add_request w prompt)
    | Failure e => (Raise e, add_request w prompt)
    end.

(** [not api_key] *)
Definition no_key (k : option pystr) : bool :=
  match k with
  | None | Some [] => true
  | Some (_ :: _) => false
  end.

(** [historial.insert(0, new_day)] *)
Definition py_insert_front (historial new_day : json) : result json :=
  match historial with
  | JList l => Ok (JList (new_day :: l))
  | _ => Raise AttributeError
  end.

(** [len(raw_text)] in the line printed after the call *)
Definition text_of_content (raw : option pystr) : result pystr :=
  match raw with
  | Some t => Ok t
  | None => Raise TypeError
  end.

(** [try: parse_response(raw_text)
     except (json.JSONDecodeError, AssertionError): sys.exit(1)] *)
Definition parse_or_exit (raw_text : pystr) : result json :=
  match parse_response raw_text with
  | Raise JSONDecodeError => Raise (SystemExit 1)
  | Raise (AssertionError _) => Raise (SystemExit 1)
  | r => r
  end.

(** [(historial[0]["dia"] + 1) if historial else 1] *)
Definition next_dia (historial : json) : result Z :=
  t <- py_truthy historial ;;
  if t then
    front <- py_first historial ;;
    d <- py_getitem front k_dia ;;
    py_add_one d
  else Ok 1.

(** [historial and historial[0].get("fecha") == fecha_hoy] *)
Definition already_today (historial : json) (fecha_hoy : pystr) : result bool :=
  t <- py_truthy historial ;;
  if t then
    front <- py_first historial ;;
    f <- py_get front k_fecha JNull ;;
    Ok (eq_str f fecha_hoy)
  else Ok false.

Definition new_day_record (dia_number : Z) (fecha_hoy : pystr) (new_data : json)
  : result json :=
  p <- py_getitem new_data k_preguntas ;;
  m <- py_getitem new_data k_mensaje_burla ;;
  Ok (JDict [(k_dia, JInt dia_number); (k_fecha, JStr fecha_hoy);
             (k_preguntas, p); (k_mensaje_burla, m)]).

(** The lines printed at the end read these fields again. *)
Definition summary (new_data historial : json) : result unit :=
  p <- py_getitem new_data k_preguntas ;;
  qs <- py_iter p ;;
  _ <- mapM (fun q => py_getitem q k_pregunta) qs ;;
  _ <- py_getitem new_data k_mensaje_burla ;;
  _ <- py_len historial ;;
  Ok tt.

Definition generate_trivia : run unit :=
  api_key <~ getenv_api_key ;;
  if no_key api_key then lift (Raise (SystemExit 1)) else
  historial <~ load_run ;;
  _ <~ lift (py_len historial) ;;
  dia_number <~ lift (next_dia historial) ;;
  fecha_hoy <~ today ;;
  skip <~ lift (already_today historial fecha_hoy) ;;
  if skip then ret tt else
  prev_questions <~ lift (get_previous_questions historial MAX_CONTEXT_QUESTIONS) ;;
  texts <~ lift (mapM py_format prev_questions) ;;
  let prompt := build_prompt texts dia_number in
  raw <~ chat_completion prompt ;;
  raw_text <~ lift (text_of_content raw) ;;
  new_data <~ lift (parse_or_exit raw_text) ;;
  new_day <~ lift (new_day_record dia_number fecha_hoy new_data) ;;
  historial <~ lift (py_insert_front historial new_day) ;;
  _ <~ save_run historial ;;
  _ <~ lift (summary new_data historial) ;;
  ret tt.



(* ================================================================== *)
(** * What the properties below speak about *)
(* ================================================================== *)

(** ** Histories a run can build on *)

Local Open Scope nat_scope.

(** A question of a stored day: an object with a ["pregunta"]. *)
Definition stored_question_ok (q : json) : bool :=
  match q with
  | JDict d => match dict_get d k_pregunta with Some _ => true | None => false end
  | _ => false
  end.

(** A stored day: an object whose ["preguntas"], when it has the key, is a
    list of such questions. *)
Definition stored_day_ok (day : json) : bool :=
  match day with
  | JDict d =>
      match dict_get d k_preguntas with
      | None => true
      | Some (JList qs) => forallb stored_question_ok qs
      | Some _ => false
      end
  | _ => false
  end.

Definition question_text (q : json) : json :=
  match q with
  | JDict d => match dict_get d k_pregunta with Some t => t | None => JNull end
  | _ => JNull
  end.

Definition day_texts (day : json) : list json :=
  match day with
  | JDict d =>
      match dict_get d k_preguntas with
      | Some (JList qs) => map question_text qs
      | _ => []
      end
  | _ => []
  end.

(** The question texts of a history, most recent day first and in the
    order of each day. *)
Definition all_texts (days : list json) : list json := flat_map day_texts days.

(** ** Responses [parse_response] hands back *)

(** The index of the right answer of a question with [n] options.  With
    [allow_bool] a JSON boolean counts as an index. *)
Definition index_shape (allow_bool : bool) (r : json) (n : nat) : bool :=
  match r with
  | JInt z => (0 <=? z)%Z && (z <? Z.of_nat n)%Z
  | JBool _ => allow_bool
  | _ => false
  end.

(** A question: an object with a text, two or three options and the index
    of one of them. *)
Definition question_shape (allow_bool : bool) (q : json) : bool :=
  match q with
  | JDict d =>
      match dict_get d k_pregunta, dict_get d k_opciones,
            dict_get d k_respuesta_correcta with
      | Some _, Some o, Some r =>
          match py_len o with
          | Ok n => (Nat.eqb n 2 || Nat.eqb n 3) && index_shape allow_bool r n
          | Raise _ => false
          end
      | _, _, _ => false
      end
  | _ => false
  end.

(** A response: an object with exactly three questions and a taunt. *)
Definition response_shape (allow_bool : bool) (data : json) : bool :=
  match data with
  | JDict d =>
      match dict_get d k_preguntas, dict_get d k_mensaje_burla with
      | Some (JList qs), Some _ =>
          Nat.eqb (length qs) 3 && forallb (question_shape allow_bool) qs
      | _, _ => false
      end
  | _ => false
  end.




(** A reply in which the index of the second question is [true]. *)
Definition boolean_index_response : pystr := Eval vm_compute in dq
"{'preguntas': [
   {'pregunta': 'a', 'opciones': ['x', 'y', 'z'], 'respuesta_correcta': 0},
   {'pregunta': 'b', 'opciones': ['Verdadero', 'Falso'], 'respuesta_correcta': true},
   {'pregunta': 'c', 'opciones': ['x', 'y', 'z'], 'respuesta_correcta': 2}],
  'mensaje_burla': 'x'}".


(** ** Values of the interpreter and what a file can take *)



Definition no_surrogate (s : pystr) : bool := negb (existsb is_surrogate s).

(** No string inside the value, key or not, has a surrogate code point:
    UTF-8 can encode them all. *)
Fixpoint encodable (v : json) : bool :=
  match v with
  | JStr s => no_surrogate s
  | JList items => forallb encodable items
  | JDict entries =>
      forallb (fun kv => no_surrogate (fst kv) && encodable (snd kv)) entries
  | _ => true
  end.

(** What may stand after a number without being read as part of it. *)
Definition ends_number (rest : pystr) : bool :=
  match rest with
  | [] => true
  | c :: _ => negb (is_digit c || (c =? 46)%N || (c =? 101)%N || (c =? 69)%N)
  end.


(** ** The second half of a run *)

(** What [generate_trivia] does once the prompt is built, written without
    the monad (lemma [generate_trivia_steps]). *)
Definition after_prompt (w : World) (historial : json) (dia_number : Z)
  (prompt : pystr) : result unit * World :=
  let w1 := add_request w prompt in
  match groq w prompt with
  | Failure e => (Raise e, w1)
  | Content raw =>
  match text_of_content raw with
  | Raise e => (Raise e, w1)
  | Ok raw_text =>
  match parse_or_exit raw_text with
  | Raise e => (Raise e, w1)
  | Ok new_data =>
  match new_day_record dia_number (fecha_of_clock (clock w)) new_data with
  | Raise e => (Raise e, w1)
  | Ok new_day =>
  match py_insert_front historial new_day with
  | Raise e => (Raise e, w1)
  | Ok historial' =>
  match save_historial historial' (historial_file w) with
  | (Raise e, file) => (Raise e, set_file w1 file)
  | (Ok _, file) =>
  match summary new_data historial' with
  | Raise e => (Raise e, set_file w1 file)
  | Ok _ => (Ok tt, set_file w1 file)
  end end end end end end end.

(** ** The layout of a JSON text *)

(** A text made of blanks of JSON and of words: a word starts with a
    character that is neither white space for [str.strip] nor a backtick,
    and has no line break inside.  Strings, numbers, constants and
    punctuation marks are words. *)
Inductive lexemes : pystr -> Prop :=
| lex_nil : lexemes []
| lex_ws (c : N) (s : pystr) :
    is_ws c = true -> lexemes s -> lexemes (c :: s)
| lex_word (c : N) (t s : pystr) :
    py_isspace c = false -> c <> 96%N -> ~ In 10%N (c :: t) ->
    lexemes s -> lexemes ((c :: t) ++ s).

(** Reading [s] up to [r] goes over blanks and words. *)
Definition consumes (s r : pystr) : Prop :=
  exists t, s = t ++ r /\ lexemes t.

(** A line does not start, after white space, with a backtick. *)
Definition head_ok (l : pystr) : Prop :=
  match lstrip l with
  | [] => True
  | c :: _ => c <> 96%N
  end.

(** A body between an opening fence line, with a tag, and a closing one. *)
Definition in_fences (tag body : pystr) : pystr :=
  fence ++ tag ++ [10%N] ++ body ++ [10%N] ++ fence.

(** A text of white space, as [str.strip] takes it. *)
Definition blank (w : pystr) : Prop := forallb py_isspace w = true.

(** The characters of a number. *)
Definition number_char (c : N) : bool :=
  is_digit c || (c =? 45)%N || (c =? 43)%N || (c =? 46)%N
  || (c =? 101)%N || (c =? 69)%N.

(** ** Sample runs *)

(** A reply as the prompt asks for it. *)
Definition sample_response : pystr := Eval vm_compute in dq
"{
  'preguntas': [
    {'pregunta': '¿Cuál es la capital de España?',
     'opciones': ['Madrid', 'Sevilla', 'Valencia'],
     'respuesta_correcta': 0},
    {'pregunta': 'La paella es originaria de Valencia.',
     'opciones': ['Verdadero', 'Falso'],
     'respuesta_correcta': 0},
    {'pregunta': '¿Quién pintó el Guernica?',
     'opciones': ['Dalí', 'Goya', 'Picasso'],
     'respuesta_correcta': 2}
  ],
  'mensaje_burla': '¡Ni con el comodín del público! 😂'
}".

(** The same reply with half of a surrogate pair as its last escape. *)
Definition truncated_escape_response : pystr := Eval vm_compute in dq
"{
  'preguntas': [
    {'pregunta': '¿Cuál es la capital de España?',
     'opciones': ['Madrid', 'Sevilla', 'Valencia'],
     'respuesta_correcta': 0},
    {'pregunta': 'La paella es originaria de Valencia.',
     'opciones': ['Verdadero', 'Falso'],
     'respuesta_correcta': 0},
    {'pregunta': '¿Quién pintó el Guernica?',
     'opciones': ['Dalí', 'Goya', 'Picasso'],
     'respuesta_correcta': 2}
  ],
  'mensaje_burla': '¡Ni con el comodín del público! \ud83d'
}".

(** 3 November 2025, 12:00 UTC, no history file yet. *)
Definition first_run : World :=
  {| api_key_env := Some (lit "gsk_key");
     historial_file := None;
     clock := 1762171200;
     groq := fun _ => Content (Some sample_response);
     requests := [] |}.

Definition after_first_run : World :=
  Eval vm_compute in snd (generate_trivia first_run).




Definition sample_questions : json :=
  JList [JDict [(k_pregunta, JStr (lit "a"));
                (k_opciones, JList [JStr (lit "x"); JStr (lit "y")]);
                (k_respuesta_correcta, JInt 0)];
         JDict [(k_pregunta, JStr (lit "b"));
                (k_opciones, JList [JStr (lit "x"); JStr (lit "y")]);
                (k_respuesta_correcta, JInt 1)];
         JDict [(k_pregunta, JStr (lit "c"));
                (k_opciones, JList [JStr (lit "x"); JStr (lit "y"); JStr (lit "z")]);
                (k_respuesta_correcta, JInt 2)]].

Definition sample_day (dia : Z) (fecha : pystr) : json :=
  JDict [(k_dia, JInt dia); (k_fecha, JStr fecha);
         (k_preguntas, sample_questions); (k_mensaje_burla, JStr (lit "m"))].

(** A history in which the record of 3 November 2025 lies behind one dated
    the day before. *)
Definition shuffled_history : json :=
  JList [sample_day 2 (lit "2025-11-02"); sample_day 1 (lit "2025-11-03")].

Definition shuffled_run : World :=
  {| api_key_env := Some (lit "gsk_key");
     historial_file := Some (json_dumps shuffled_history);
     clock := 1762171200;
     groq := fun _ => Content (Some sample_response);
     requests := [] |}.

(** Twenty-one days of three questions. *)
Definition long_history : list json := repeat (sample_day 1 (lit "2025-11-03")) 21.

(** A history one of whose strings is half of a surrogate pair. *)
Definition surrogate_history : json :=
  JList [JDict [(k_dia, JInt 1); (k_fecha, JStr (lit "2024-01-01"));
                (k_preguntas, JList []); (k_mensaje_burla, JStr [55357%N])]].

(** A run on the day after [first_run], the model answering with
    [truncated_escape_response]. *)
Definition truncated_escape_run : World :=
  {| api_key_env := Some (lit "gsk_key");
     historial_file := historial_file after_first_run;
     clock := 1762257600;
     groq := fun _ => Content (Some truncated_escape_response);
     requests := [] |}.

Definition after_truncated_escape_run : World :=
  Eval vm_compute in snd (generate_trivia truncated_escape_run).

(** What [sample_response] decodes to. *)
Definition sample_data : json :=
  Eval vm_compute in
    match json_loads sample_response with Ok v => v | Raise _ => JNull end.

(** The fields of the record in front of [shuffled_history]. *)
Definition shuffled_front : list (pystr * json) :=
  [(k_dia, JInt 2); (k_fecha, JStr (lit "2025-11-02"));
   (k_preguntas, sample_questions); (k_mensaje_burla, JStr (lit "m"))].

(** ** Days and their numbers *)

(** The number of days since 1970-01-01 of a civil date. *)
Definition days_from_civil (ymd : Z * Z * Z) : Z :=
  let '(y, m, d) := ymd in
  (let y' := if m <=? 2 then y - 1 else y in
   let era := y' / 400 in
   let yoe := y' - era * 400 in
   let mp := if m <=? 2 then m + 9 else m - 3 in
   let doy := (153 * mp + 2) / 5 + d - 1 in
   let doe := yoe * 365 + yoe / 4 - yoe / 100 + doy in
   era * 146097 + doe - 719468)%Z.

(** The day a clock falls on in [MADRID_TZ], counted from 1970-01-01. *)
Definition madrid_day (utc_seconds : Z) : Z :=
  ((utc_seconds + MADRID_OFFSET) / 86400)%Z.


(** ** More sample runs *)


(** A day whose second question has no ["pregunta"]. *)
Definition day_without_pregunta : list (pystr * json) :=
  [(k_dia, JInt 2); (k_fecha, JStr (lit "2025-11-04"));
   (k_preguntas,
    JList ([JDict [(k_pregunta, JStr (lit "a"))]] ++ JDict [] :: []))].

(** A reply with a sentence before the fenced JSON text. *)
Definition chatty_response : pystr := Eval vm_compute in dq
"Aquí tienes las preguntas:
```json
{'preguntas': [], 'mensaje_burla': 'x'}
```".

(** A reply whose second question has four options and whose third is a
    number. *)
Definition second_question_bad : list (pystr * json) :=
  [(k_preguntas,
    JList ([JDict [(k_pregunta, JStr (lit "a"));
                   (k_opciones, JList [JStr (lit "x"); JStr (lit "y")]);
                   (k_respuesta_correcta, JInt 0)]]
             ++ JDict [(k_pregunta, JStr (lit "b"));
                       (k_opciones, JList [JStr (lit "x"); JStr (lit "y");
                                           JStr (lit "z"); JStr (lit "t")]);
                       (k_respuesta_correcta, JInt 0)]
             :: [JInt 7]));
   (k_mensaje_burla, JStr (lit "m"))].

(** The day after [first_run], the model answering with a sentence. *)
Definition rejected_run : World :=
  {| api_key_env := Some (lit "gsk_key");
     historial_file := historial_file after_first_run;
     clock := 1762257600;
     groq := fun _ => Content (Some (lit "Lo siento, no puedo."));
     requests := [] |}.

Definition after_rejected_run : World :=
  Eval vm_compute in snd (generate_trivia rejected_run).

(** A history file whose one record is dated 3 November 2025 and has no
    ["dia"]. *)
Definition record_without_dia : list (pystr * json) :=
  [(k_fecha, JStr (lit "2025-11-03")); (k_preguntas, sample_questions);
   (k_mensaje_burla, JStr (lit "m"))].

Definition run_without_dia : World :=
  {| api_key_env := Some (lit "gsk_key");
     historial_file := Some (json_dumps (JList [JDict record_without_dia]));
     clock := 1762171200;
     groq := fun _ => Content (Some sample_response);
     requests := [] |}.

(** A history file that holds an empty object. *)
Definition run_on_object : World :=
  {| api_key_env := Some (lit "gsk_key");
     historial_file := Some (lit "{}");
     clock := 1762171200;
     groq := fun _ => Content (Some sample_response);
     requests := [] |}.

(* ================================================================== *)
(** * Properties *)
(* ================================================================== *)

(** ** Strings *)

Lemma pystr_eqb_eq (a b : pystr) : pystr_eqb a b = true <-> a = b.
Proof.
  revert b; induction a as [|x a IH]; intros [|y b]; simpl; split;
    try congruence; try reflexivity.
  - rewrite andb_true_iff, N.eqb_eq, IH. intros [-> ->]; reflexivity.
  - intros H; injection H as -> ->. now rewrite N.eqb_refl, (proj2 (IH b)).
Qed.


Lemma pystr_eqb_neq (a b : pystr) : pystr_eqb a b = false <-> a <> b.
Proof.
  rewrite <- pystr_eqb_eq. destruct (pystr_eqb a b); split; congruence.
Qed.

(** ** [get_previous_questions] *)

Lemma questions_loop_spec (qs : list json) (acc : list json) (m : nat) :
  forallb stored_question_ok qs = true ->
  length acc < m ->
  questions_loop qs acc (Z.of_nat m) =
    Ok (if m <=? length acc + length qs
        then Return (firstn m (acc ++ map question_text qs))
        else Next (acc ++ map question_text qs)).
Proof.
  revert acc; induction qs as [|q qs IH]; intros acc Hok Hlt; simpl.
  - rewrite app_nil_r, Nat.add_0_r.
    destruct (Nat.leb_spec m (length acc)); [lia | reflexivity].
  - simpl in Hok. apply andb_true_iff in Hok as [Hq Hqs].
    destruct q as [| | | | |?|d]; try discriminate. simpl in Hq |- *.
    destruct (dict_get d k_pregunta) as [t|] eqn:Ht; [|discriminate]. simpl.
    rewrite length_app. simpl.
    destruct (Z.geb_spec (Z.of_nat (length acc + 1)) (Z.of_nat m)) as [Hge|Hlt'].
    + assert (m = length acc + 1) by lia. subst m.
      destruct (Nat.leb_spec (length acc + 1) (length acc + S (length qs))); [|lia].
      f_equal. f_equal.
      replace (acc ++ t :: map question_text qs)
        with ((acc ++ [t]) ++ map question_text qs) by now rewrite <- app_assoc.
      rewrite firstn_app. rewrite length_app. simpl.
      replace (length acc + 1 - (length acc + 1)) with 0 by lia.
      rewrite firstn_all2 by (rewrite length_app; simpl; lia).
      simpl. now rewrite app_nil_r.
    + rewrite IH; try assumption; [|rewrite length_app; simpl; lia].
      rewrite length_app. simpl.
      replace (length acc + 1 + length qs) with (length acc + S (length qs)) by lia.
      now rewrite <- app_assoc.
Qed.

Lemma days_loop_spec (days : list json) (acc : list json) (m : nat) :
  forallb stored_day_ok days = true ->
  length acc < m ->
  days_loop days acc (Z.of_nat m) = Ok (firstn m (acc ++ all_texts days)).
Proof.
  unfold all_texts.
  revert acc; induction days as [|day days IH]; intros acc Hok Hlt; simpl.
  - rewrite app_nil_r, firstn_all2 by lia. reflexivity.
  - simpl in Hok. apply andb_true_iff in Hok as [Hday Hdays].
    destruct day as [| | | | |?|d]; try discriminate. simpl in Hday |- *.
    destruct (dict_get d k_preguntas) as [p|] eqn:Hp; simpl.
    + destruct p as [| | | | |qs|?]; try discriminate. simpl.
      rewrite questions_loop_spec by assumption. simpl.
      destruct (Nat.leb_spec m (length acc + length qs)) as [Hle|Hgt].
      * f_equal. rewrite app_assoc.
        rewrite (firstn_app m (acc ++ map question_text qs)).
        replace (m - length (acc ++ map question_text qs)) with 0
          by (rewrite length_app, length_map; lia).
        simpl. now rewrite app_nil_r.
      * rewrite IH; try assumption.
        -- now rewrite <- app_assoc.
        -- rewrite length_app, length_map. lia.
    + now rewrite IH.
Qed.

(** The function never hands back more than the cap, whatever the
    history looks like. *)
Lemma questions_loop_bound (qs acc : list json) (m : nat) (f : flow) :
  0 < m -> length acc < m ->
  questions_loop qs acc (Z.of_nat m) = Ok f ->
  match f with
  | Return r => length r = m
  | Next r => length r < m
  end.
Proof.
  intros Hm. revert acc; induction qs as [|q qs IH]; intros acc Hlt; simpl.
  - intros [= <-]. assumption.
  - destruct (py_getitem q k_pregunta) as [t|e]; simpl; [|discriminate].
    rewrite length_app. simpl.
    destruct (Z.geb_spec (Z.of_nat (length acc + 1)) (Z.of_nat m)) as [Hge|Hlt'].
    + intros [= <-]. rewrite length_app. simpl. lia.
    + intros H. apply IH in H; [assumption|]. rewrite length_app. simpl. lia.
Qed.

Lemma days_loop_bound (days acc r : list json) (m : nat) :
  0 < m -> length acc < m ->
  days_loop days acc (Z.of_nat m) = Ok r -> length r <= m.
Proof.
  intros Hm. revert acc; induction days as [|day days IH]; intros acc Hlt; simpl.
  - intros [= <-]. lia.
  - destruct (py_get day k_preguntas (JList [])) as [p|]; simpl; [|discriminate].
    destruct (py_iter p) as [qs|]; simpl; [|discriminate].
    destruct (questions_loop qs acc (Z.of_nat m)) as [f|] eqn:Hf; simpl; [|discriminate].
    apply questions_loop_bound in Hf; try assumption.
    destruct f as [r'|r'].
    + now apply IH.
    + intros [= <-]. lia.
Qed.

(** C5.  From a history of more than 60 questions [get_previous_questions]
    returns exactly the first 60 of the question texts read most recent day
    first and in the order of each day; from a history of at most 60 it
    returns them all, in that order; and it never returns more than 60. *)
Theorem get_previous_questions_cap :
  (forall days : list json,
      forallb stored_day_ok days = true ->
      get_previous_questions (JList days) MAX_CONTEXT_QUESTIONS
        = Ok (firstn 60 (all_texts days))
      /\ (60 < length (all_texts days) ->
          length (firstn 60 (all_texts days)) = 60)
      /\ (length (all_texts days) <= 60 ->
          firstn 60 (all_texts days) = all_texts days))
  /\ (forall (historial : json) (qs : list json),
         get_previous_questions historial MAX_CONTEXT_QUESTIONS = Ok qs ->
         length qs <= 60).
Proof.
  split.
  - intros days Hok. split; [|split].
    + unfold get_previous_questions. simpl.
      change MAX_CONTEXT_QUESTIONS with (Z.of_nat 60).
      rewrite days_loop_spec by (assumption || (simpl; lia)). reflexivity.
    + intros H. rewrite length_firstn. lia.
    + intros H. now apply firstn_all2.
  - intros historial qs. unfold get_previous_questions.
    destruct (py_iter historial) as [days|]; simpl; [|discriminate].
    change MAX_CONTEXT_QUESTIONS with (Z.of_nat 60).
    apply days_loop_bound; simpl; lia.
Qed.

(** ** [build_prompt] *)

(** C8.  [build_prompt] is a function of its two arguments alone: two
    evaluations on the same previous questions and day number give the same
    text.  On no previous question and day 1, which is what an empty history
    leads to, the text says "día #1" and puts "(ninguna todavía)" where the
    previous questions go. *)
Theorem build_prompt_deterministic :
  (forall (previous_questions : list pystr) (dia_number : Z) (p1 p2 : pystr),
      p1 = build_prompt previous_questions dia_number ->
      p2 = build_prompt previous_questions dia_number -> p1 = p2)
  /\ get_previous_questions (JList []) MAX_CONTEXT_QUESTIONS = Ok []
  /\ next_dia (JList []) = Ok 1%Z
  /\ build_prompt [] 1
     = prompt_head ++ lit "  (ninguna todavía)" ++ prompt_middle
         ++ lit "1" ++ prompt_tail
  /\ str_contains (lit "día #1") (build_prompt [] 1) = true
  /\ str_contains (lit "(ninguna todavía)") (build_prompt [] 1) = true.
Proof.
  split; [|split; [|split; [|split; [|split]]]].
  - intros pq d p1 p2 -> ->. reflexivity.
  - reflexivity.
  - reflexivity.
  - reflexivity.
  - vm_compute. reflexivity.
  - vm_compute. reflexivity.
Qed.

(** ** [parse_response] *)

Ltac bind_ok H :=
  match type of H with
  | bind ?m _ = _ =>
      let E := fresh "E" in
      destruct m eqn:E; simpl in H; [|discriminate]
  end.

Lemma check_ok (c : bool) (r : rule) : check c r = Ok tt <-> c = true.
Proof. unfold check, py_assert. destruct c; split; congruence. Qed.

Lemma check_question_ok (i : nat) (q : json) :
  check_question i q = Ok tt <-> question_shape true q = true.
Proof.
  unfold check_question, question_shape, check, py_assert.
  destruct q as [| | | |s|l|d]; simpl; try (split; discriminate).
  - (* a string: the three tests may pass, the subscript cannot *)
    destruct (str_contains k_pregunta s); simpl; [|split; discriminate].
    destruct (str_contains k_opciones s); simpl; [|split; discriminate].
    destruct (str_contains k_respuesta_correcta s); simpl; split; discriminate.
  - destruct (existsb _ l); simpl; [|split; discriminate].
    destruct (existsb _ l); simpl; [|split; discriminate].
    destruct (existsb _ l); simpl; split; discriminate.
  - destruct (dict_get d k_pregunta); simpl; [|split; discriminate].
    destruct (dict_get d k_opciones) as [o|]; simpl; [|split; discriminate].
    destruct (dict_get d k_respuesta_correcta) as [r|]; simpl; [|split; discriminate].
    destruct (py_len o) as [n|]; simpl; [|split; discriminate].
    destruct (Nat.eqb n 2 || Nat.eqb n 3) eqn:Hn; simpl; [|split; discriminate].
    destruct r as [|b|z| | | |]; simpl; try (split; discriminate).
    + apply orb_true_iff in Hn. rewrite !Nat.eqb_eq in Hn.
      destruct Hn as [-> | ->]; destruct b; simpl; split; auto.
    + destruct ((0 <=? z)%Z && (z <? Z.of_nat n)%Z); simpl; split; congruence.
Qed.


Lemma check_questions_ok (i : nat) (qs : list json) :
  check_questions i qs = Ok tt <-> forallb (question_shape true) qs = true.
Proof.
  revert i; induction qs as [|q qs IH]; intros i; simpl; [tauto|].
  rewrite andb_true_iff, <- (check_question_ok i q), <- (IH (S i)).
  destruct (check_question i q) as [[]|e]; simpl; split; try tauto; try discriminate.
Qed.


Lemma string_question_never_ok (s : pystr) (b : bool) :
  question_shape b (JStr s) = false.
Proof. reflexivity. Qed.

Lemma validate_ok (data data' : json) :
  validate data = Ok data' <-> data' = data /\ response_shape true data = true.
Proof.
  unfold validate, response_shape, check, py_assert.
  destruct data as [| | | |s|l|d]; simpl;
    try (split; [discriminate|intros [_ H]; discriminate]).
  - destruct (str_contains k_preguntas s); simpl;
      [|split; [discriminate|intros [_ H]; discriminate]].
    destruct (str_contains k_mensaje_burla s); simpl;
      split; try discriminate; intros [_ H]; discriminate.
  - destruct (existsb _ l); simpl;
      [|split; [discriminate|intros [_ H]; discriminate]].
    destruct (existsb _ l); simpl;
      split; try discriminate; intros [_ H]; discriminate.
  - destruct (dict_get d k_preguntas) as [p|]; simpl;
      [|split; [discriminate|intros [_ H]; discriminate]].
    destruct (dict_get d k_mensaje_burla) as [m|]; simpl;
      [|split; [discriminate|intros [_ H]; destruct p; discriminate]].
    destruct p as [| | | |s|qs|ms]; simpl;
      try (split; [discriminate|intros [_ H]; discriminate]).
    + (* three characters: none of them is a question *)
      destruct (Nat.eqb (length s) 3) eqn:Hn; simpl;
        [|split; [discriminate|intros [_ H]; discriminate]].
      split; [|intros [_ H]; discriminate].
      destruct (check_questions 0 (map (fun c => JStr [c]) s)) as [[]|e] eqn:Hq;
        simpl; [|discriminate].
      apply check_questions_ok in Hq. destruct s; [discriminate Hn|discriminate Hq].
    + destruct (Nat.eqb (length qs) 3) eqn:Hn; simpl;
        [|split; [discriminate|intros [_ H]; discriminate]].
      destruct (check_questions 0 qs) as [[]|e] eqn:Hq; simpl.
      * apply check_questions_ok in Hq. rewrite Hq. split; [intros [= <-]|]; auto.
        intros [-> _]; reflexivity.
      * split; [discriminate|]. intros [_ H].
        apply (proj2 (check_questions_ok 0 qs)) in H. congruence.
    + (* three keys: none of them is a question *)
      destruct (Nat.eqb (length ms) 3) eqn:Hn; simpl;
        [|split; [discriminate|intros [_ H]; discriminate]].
      split; [|intros [_ H]; discriminate].
      destruct (check_questions 0 (map (fun kv => JStr (fst kv)) ms)) as [[]|e] eqn:Hq;
        simpl; [|discriminate].
      apply check_questions_ok in Hq. destruct ms; [discriminate Hn|discriminate Hq].
Qed.


(** ** The decoder: what it consumes *)

Ltac break_hyp H :=
  match type of H with
  | context [match ?x with _ => _ end] => destruct x eqn:?
  end.

Ltac break_goal :=
  match goal with
  | |- context [match ?x with _ => _ end] => destruct x eqn:?
  end.

Lemma skip_ws_length (s : pystr) : length (skip_ws s) <= length s.
Proof.
  induction s as [|c s IH]; simpl; [lia|]. destruct (is_ws c); simpl; lia.
Qed.

Lemma skip_ws_cons_length (s r : pystr) (c : N) :
  skip_ws s = c :: r -> length r < length s.
Proof.
  intros H. pose proof (skip_ws_length s) as L. rewrite H in L. simpl in L. lia.
Qed.

Lemma startswith_app (p s : pystr) :
  startswith p s = true -> s = p ++ skipn (length p) s.
Proof.
  revert s; induction p as [|x p IH]; intros [|c s]; simpl; try discriminate; auto.
  rewrite andb_true_iff, N.eqb_eq. intros [-> H]. f_equal. now apply IH.
Qed.


Lemma startswith_skipn_length (p s : pystr) :
  startswith p s = true -> length (skipn (length p) s) + length p = length s.
Proof.
  intros H. apply startswith_app in H. rewrite H at 2. rewrite length_app. lia.
Qed.

Lemma cons_char_some (c : N) (r : option (pystr * pystr)) (k rest : pystr) :
  cons_char c r = Some (k, rest) ->
  exists k', r = Some (k', rest) /\ k = c :: k'.
Proof.
  destruct r as [[k' rest']|]; simpl; [|discriminate].
  intros [= <- <-]. eauto.
Qed.

Lemma scanstring_length (s k r : pystr) :
  scanstring s = Some (k, r) -> length r < length s.
Proof.
  remember (length s) as n eqn:Hn. revert s k r Hn.
  induction n as [n IH] using lt_wf_ind. intros s k r Hn H.
  destruct s as [|c s]; [discriminate|]. simpl in H, Hn.
  destruct (c =? 34)%N; [injection H as <- <-; lia|].
  destruct (c =? 92)%N.
  - destruct s as [|e r1]; [discriminate|].
    destruct (e =? 117)%N.
    + destruct r1 as [|h1 [|h2 [|h3 [|h4 r2]]]]; try discriminate.
      destruct (hex4 h1 h2 h3 h4) as [uni|]; [|discriminate].
      assert (T : forall k0, cons_char uni (scanstring r2) = Some (k0, r) ->
                  length r < n).
      { intros k0 H0. apply cons_char_some in H0 as (k' & H0 & _).
        apply (IH (length r2)) in H0; simpl in *; try lia. }
      destruct (is_high_surrogate uni); [|eauto].
      destruct r2 as [|bs [|u [|l1 [|l2 [|l3 [|l4 r3]]]]]]; eauto.
      destruct ((bs =? 92)%N && (u =? 117)%N); [|eauto].
      destruct (hex4 l1 l2 l3 l4) as [uni2|]; [|discriminate].
      destruct (is_low_surrogate uni2); [|eauto].
      apply cons_char_some in H as (k' & H & _).
      apply (IH (length r3)) in H; simpl in *; lia.
    + destruct (unescape e); [|discriminate].
      apply cons_char_some in H as (k' & H & _).
      apply (IH (length r1)) in H; simpl in *; lia.
  - destruct (c <? 32)%N; [discriminate|].
    apply cons_char_some in H as (k' & H & _).
    apply (IH (length s)) in H; simpl in *; lia.
Qed.

Lemma span_digits_app (s ds r : pystr) :
  span_digits s = (ds, r) -> s = ds ++ r.
Proof.
  revert ds r; induction s as [|c s IH]; simpl; intros ds r.
  - intros [= <- <-]. reflexivity.
  - destruct (is_digit c).
    + destruct (span_digits s) as [ds' r'] eqn:E. intros [= <- <-].
      simpl. f_equal. now apply IH.
    + intros [= <- <-]. reflexivity.
Qed.

Lemma match_int_part_app (s ip r : pystr) :
  match_int_part s = Some (ip, r) -> s = ip ++ r /\ ip <> [].
Proof.
  unfold match_int_part. destruct s as [|c s]; [discriminate|].
  destruct (c =? 48)%N eqn:E0.
  - apply N.eqb_eq in E0 as ->. intros [= <- <-]. split; [reflexivity|discriminate].
  - destruct (is_digit c); [|discriminate].
    destruct (span_digits s) as [ds r'] eqn:E. intros [= <- <-].
    apply span_digits_app in E as ->. split; [reflexivity|discriminate].
Qed.

Lemma match_frac_app (s fr r : pystr) :
  match_frac s = (fr, r) -> s = fr ++ r.
Proof.
  unfold match_frac. destruct s as [|c s]; [intros [= <- <-]; reflexivity|].
  destruct (c =? 46)%N; [|intros [= <- <-]; reflexivity].
  destruct (span_digits s) as [[|d ds] r'] eqn:E; intros [= <- <-]; [reflexivity|].
  apply span_digits_app in E as ->. reflexivity.
Qed.

Lemma match_exp_app (s ex r : pystr) :
  match_exp s = (ex, r) -> s = ex ++ r.
Proof.
  unfold match_exp. destruct s as [|c s]; [intros [= <- <-]; reflexivity|].
  destruct ((c =? 101)%N || (c =? 69)%N); [|intros [= <- <-]; reflexivity].
  destruct s as [|sg r1]; [intros [= <- <-]; reflexivity|].
  destruct ((sg =? 43)%N || (sg =? 45)%N).
  - destruct (span_digits r1) as [[|d ds] r'] eqn:E; intros [= <- <-]; [reflexivity|].
    apply span_digits_app in E as ->. reflexivity.
  - destruct (span_digits (sg :: r1)) as [[|d ds] r'] eqn:E; intros [= <- <-];
      [reflexivity|].
    apply span_digits_app in E. rewrite E. reflexivity.
Qed.

Lemma match_number_length (s r : pystr) (v : json) :
  match_number s = Some (v, r) -> length r < length s.
Proof.
  unfold match_number.
  assert (Hp : length (snd (split_sign s)) <= length s).
  { destruct s as [|c s]; simpl; [lia|].
    destruct (c =? 45)%N; simpl; lia. }
  destruct (split_sign s) as [neg s1]. simpl in Hp.
  destruct (match_int_part s1) as [[ip s2]|] eqn:E1; [|discriminate].
  destruct (match_frac s2) as [fr s3] eqn:E2.
  destruct (match_exp s3) as [ex s4] eqn:E3.
  apply match_int_part_app in E1 as [-> Hip].
  apply match_frac_app in E2 as ->. apply match_exp_app in E3 as ->.
  assert (length r < length s -> length r < length s) by auto.
  assert (L : length s4 < length s).
  { rewrite !length_app in Hp. destruct ip; [congruence|]. simpl in Hp. lia. }
  destruct fr, ex; intros [= <- <-]; exact L.
Qed.

Lemma scan_atom_length (s r : pystr) (v : json) :
  scan_atom s = Got v r -> length r < length s.
Proof.
  unfold scan_atom.
  repeat match goal with
  | |- context [startswith ?k s] =>
      let E := fresh "E" in
      destruct (startswith k s) eqn:E;
        [apply startswith_skipn_length in E; intros [= <- <-];
         simpl in E |- *; lia|]
  end.
  destruct (match_number s) as [[v' r']|] eqn:Em; [|].
  - intros [= <- <-]. now apply match_number_length in Em.
  - repeat match goal with
    | |- context [startswith ?k s] =>
        let E := fresh "E" in
        destruct (startswith k s) eqn:E;
          [apply startswith_skipn_length in E; intros [= <- <-];
           simpl in E |- *; lia|]
    end.
    discriminate.
Qed.

Ltac scan_unfold H := cbn [scan_once scan_items scan_members] in H.

Ltac length_facts :=
  repeat match goal with
  | H : scanstring _ = Some _ |- _ => apply scanstring_length in H
  | H : skip_ws _ = _ :: _ |- _ => apply skip_ws_cons_length in H
  | H : scan_atom _ = Got _ _ |- _ => apply scan_atom_length in H
  | IH : (forall s v r, scan_once ?f s = Got v r -> _),
    H : scan_once ?f _ = Got _ _ |- _ => apply IH in H
  | IH : (forall s v r, scan_items ?f s = Got v r -> _),
    H : scan_items ?f _ = Got _ _ |- _ => apply IH in H
  | IH : (forall s v r, scan_members ?f s = Got v r -> _),
    H : scan_members ?f _ = Got _ _ |- _ => apply IH in H
  end.

Ltac skip_ws_facts :=
  repeat match goal with
  | H : context [skip_ws ?x] |- _ =>
      lazymatch goal with
      | _ : length (skip_ws x) <= length x |- _ => fail
      | _ => pose proof (skip_ws_length x)
      end
  end.

Lemma scan_length (f : nat) :
  (forall s v r, scan_once f s = Got v r -> length r < length s) /\
  (forall s v r, scan_items f s = Got v r -> length r < length s) /\
  (forall s v r, scan_members f s = Got v r -> length r < length s).
Proof.
  induction f as [|f (IH1 & IH2 & IH3)]; [repeat split; discriminate|].
  repeat split; intros s v r H; scan_unfold H.
  - destruct s as [|c s0]; [discriminate|].
    repeat break_hyp H; try discriminate; try (injection H as <- <-);
      skip_ws_facts; length_facts; simpl in *; lia.
  - repeat break_hyp H; try discriminate; injection H as <- <-;
      skip_ws_facts; length_facts; simpl in *; lia.
  - repeat break_hyp H; try discriminate; injection H as <- <-;
      skip_ws_facts; length_facts; simpl in *; lia.
Qed.

Ltac fuel_contra IH1 IH2 IH3 :=
  match goal with
  | H : scan_once _ ?x = NoFuel |- _ => exfalso; apply (IH1 x); [|exact H]
  | H : scan_items _ ?x = NoFuel |- _ => exfalso; apply (IH2 x); [|exact H]
  | H : scan_members _ ?x = NoFuel |- _ => exfalso; apply (IH3 x); [|exact H]
  end.

(** The fuel [json_loads] starts with is enough. *)
Lemma scan_fuel (f : nat) :
  (forall s, 2 * length s + 1 <= f -> scan_once f s <> NoFuel) /\
  (forall s, 2 * length s + 2 <= f -> scan_items f s <> NoFuel) /\
  (forall s, 2 * length s + 2 <= f -> scan_members f s <> NoFuel).
Proof.
  induction f as [|f (IH1 & IH2 & IH3)]; [repeat split; intros; lia|].
  destruct (scan_length f) as (L1 & L2 & L3).
  repeat split; intros s Hf; cbn [scan_once scan_items scan_members].
  - destruct s as [|c s0]; [discriminate|]. simpl in Hf.
    repeat break_goal; try discriminate;
      try (fuel_contra IH1 IH2 IH3; skip_ws_facts; length_facts; simpl in *; lia).
    unfold scan_atom. repeat break_goal; discriminate.
  - repeat break_goal; try discriminate;
      fuel_contra IH1 IH2 IH3; skip_ws_facts; length_facts; simpl in *; lia.
  - repeat break_goal; try discriminate;
      fuel_contra IH1 IH2 IH3; skip_ws_facts; length_facts; simpl in *; lia.
Qed.

Lemma json_loads_error (s : pystr) (e : exc) :
  json_loads s = Raise e -> e = JSONDecodeError.
Proof.
  unfold json_loads.
  destruct (scan_once (loads_fuel s) (skip_ws s)) as [| |v rest] eqn:E.
  - exfalso. revert E. apply (proj1 (scan_fuel _)).
    pose proof (skip_ws_length s). unfold loads_fuel. lia.
  - intros [= <-]; reflexivity.
  - destruct (skip_ws rest); [discriminate|]. intros [= <-]; reflexivity.
Qed.






(** C9.  The test [isinstance(q["respuesta_correcta"], int)] lets a JSON
    boolean through: a question with two or three options and a boolean
    index passes every check, and the reply [boolean_index_response], whose
    second question has the index [true], is handed back. *)
Theorem boolean_index_accepted :
  isinstance_int (JBool true) = true
  /\ (forall i qd p os b,
         dict_get qd k_pregunta = Some p ->
         dict_get qd k_opciones = Some (JList os) ->
         length os = 2 \/ length os = 3 ->
         dict_get qd k_respuesta_correcta = Some (JBool b) ->
         check_question i (JDict qd) = Ok tt)
  /\ exists data d qs q0 q1 q2 qd,
       parse_response boolean_index_response = Ok data /\
       data = JDict d /\
       dict_get d k_preguntas = Some (JList qs) /\
       qs = [q0; q1; q2] /\ q1 = JDict qd /\
       dict_get qd k_respuesta_correcta = Some (JBool true).
Proof.
  split; [reflexivity|split].
  - intros i qd p os b Hp Ho Hn Hr. apply check_question_ok.
    simpl. rewrite Hp, Ho, Hr. simpl.
    destruct Hn as [-> | ->]; reflexivity.
  - destruct (parse_response boolean_index_response) as [data|] eqn:E;
      [|vm_compute in E; discriminate].
    vm_compute in E. injection E as <-.
    do 7 eexists. repeat split; reflexivity.
Qed.

(** More fuel never changes an answer. *)
Lemma scan_mono (f : nat) :
  (forall s f', f <= f' -> scan_once f s <> NoFuel -> scan_once f' s = scan_once f s) /\
  (forall s f', f <= f' -> scan_items f s <> NoFuel -> scan_items f' s = scan_items f s) /\
  (forall s f', f <= f' -> scan_members f s <> NoFuel ->
                scan_members f' s = scan_members f s).
Proof.
  induction f as [|f (IH1 & IH2 & IH3)];
    [repeat split; intros s f' _ H; exfalso; apply H; reflexivity|].
  repeat split; intros s [|f'] Hle Hne; try lia;
    cbn [scan_once scan_items scan_members] in *;
    repeat (match type of Hne with
            | context [match ?x with _ => _ end] => destruct x eqn:?
            end;
            try (exfalso; apply Hne; reflexivity);
            try match goal with
              | E : scan_once f ?a = _ |- context [scan_once f' ?a] =>
                  rewrite (IH1 a f') by (try lia; rewrite E; discriminate); rewrite E
              | E : scan_items f ?a = _ |- context [scan_items f' ?a] =>
                  rewrite (IH2 a f') by (try lia; rewrite E; discriminate); rewrite E
              | E : scan_members f ?a = _ |- context [scan_members f' ?a] =>
                  rewrite (IH3 a f') by (try lia; rewrite E; discriminate); rewrite E
              end);
    reflexivity.
Qed.

Lemma json_loads_fuel (s : pystr) (f : nat) (v : json) (rest : pystr) :
  scan_once f (skip_ws s) = Got v rest ->
  skip_ws rest = [] ->
  json_loads s = Ok v.
Proof.
  intros H Hr. unfold json_loads.
  assert (E : scan_once (loads_fuel s) (skip_ws s) = Got v rest).
  { destruct (Nat.le_ge_cases f (loads_fuel s)) as [L|L].
    - rewrite (proj1 (scan_mono f) _ _ L); [assumption|congruence].
    - rewrite <- H. symmetry. apply (proj1 (scan_mono _)); [assumption|].
      apply (proj1 (scan_fuel _)).
      pose proof (skip_ws_length s). unfold loads_fuel. lia. }
  rewrite E, Hr. reflexivity.
Qed.

Lemma json_loads_inv (s : pystr) (v : json) :
  json_loads s = Ok v ->
  exists rest, scan_once (loads_fuel s) (skip_ws s) = Got v rest /\ skip_ws rest = [].
Proof.
  unfold json_loads.
  destruct (scan_once (loads_fuel s) (skip_ws s)) as [| |v' rest]; try discriminate.
  destruct (skip_ws rest) eqn:E; [|discriminate].
  intros [= <-]. eauto.
Qed.

(** ** Reading back what [json.dump] wrote: strings and numbers *)

Lemma N_below_32 (P : N -> Prop) :
  Forall P (map N.of_nat (seq 0 32)) -> forall c, (c < 32)%N -> P c.
Proof.
  intros H c Hc. rewrite Forall_forall in H. apply H.
  apply in_map_iff. exists (N.to_nat c). split; [apply N2Nat.id|].
  apply in_seq. lia.
Qed.



Lemma codes_uint_codes (u : Decimal.uint) : codes_uint (uint_codes u) = u.
Proof. induction u; simpl; unfold digit_cons; simpl; congruence. Qed.

Lemma uint_codes_digits (u : Decimal.uint) : forallb is_digit (uint_codes u) = true.
Proof. induction u; simpl; auto. Qed.



Lemma span_digits_all (ds rest : pystr) :
  forallb is_digit ds = true ->
  match rest with [] => True | c :: _ => is_digit c = false end ->
  span_digits (ds ++ rest) = (ds, rest).
Proof.
  intros Hd Hr. induction ds as [|d ds IH]; simpl in *.
  - destruct rest as [|c rest]; [reflexivity|]. simpl. now rewrite Hr.
  - apply andb_true_iff in Hd as [-> Hd]. now rewrite IH.
Qed.





Lemma int_of_digits_nat_str (n : N) :
  int_of_digits false (nat_str n) = Z.of_N n.
Proof.
  unfold int_of_digits, nat_str.
  now rewrite codes_uint_codes, DecimalN.Unsigned.of_to.
Qed.


(** ** The messages tell the rules apart *)




(** ** What [parse_response] accepts and how it rejects *)



(** ** Dictionaries *)










(** ** Reading back what [json.dump] wrote: values *)

















Lemma ends_number_newline_indent (level : nat) (x : pystr) :
  ends_number (newline_indent level ++ x) = true.
Proof. reflexivity. Qed.











(** ** Every decoded value has each key once *)







(** ** Writing the chunks *)

Lemma write_chunks_spec (chunks : list pystr) (w : pystr) :
  (exists done rest,
      write_chunks chunks w = (Raise UnicodeEncodeError, w ++ done) /\
      concat chunks = done ++ rest /\ existsb is_surrogate rest = true) \/
  (write_chunks chunks w = (Ok tt, w ++ concat chunks) /\
   forallb no_surrogate chunks = true).
Proof.
  revert w; induction chunks as [|c cs IH]; intros w; simpl.
  - right. now rewrite app_nil_r.
  - unfold no_surrogate at 1. destruct (existsb is_surrogate c) eqn:E; simpl.
    + left. exists [], (c ++ concat cs). rewrite app_nil_r. repeat split.
      rewrite existsb_app, E. reflexivity.
    + destruct (IH (w ++ c)) as [(done & rest & H1 & H2 & H3)|[H1 H2]].
      * left. exists (c ++ done), rest. rewrite H1, H2, !app_assoc. auto.
      * right. rewrite H1, app_assoc. auto.
Qed.

Lemma escape_char_no_surrogate (c : N) :
  is_surrogate c = false -> existsb is_surrogate (escape_char c) = false.
Proof.
  intros H. destruct (N.ltb_spec c 32) as [Hlt|Hge].
  - clear H. revert c Hlt. apply N_below_32. repeat constructor.
  - unfold escape_char.
    repeat match goal with
    | |- context [(c =? ?k)%N] => destruct (N.eqb_spec c k); [reflexivity|]
    end.
    destruct (N.ltb_spec c 32); [lia|]. simpl. now rewrite H.
Qed.

Lemma encode_basestring_no_surrogate (s : pystr) :
  no_surrogate s = true -> no_surrogate (encode_basestring s) = true.
Proof.
  unfold no_surrogate, encode_basestring. rewrite !negb_true_iff. intros H.
  cbn [existsb]. change (is_surrogate 34) with false. cbn [orb].
  rewrite existsb_app. cbn [existsb]. change (is_surrogate 34) with false.
  cbn [orb]. rewrite orb_false_r.
  induction s as [|c s IH]; [reflexivity|].
  simpl in H. apply orb_false_iff in H as [Hc Hs].
  simpl flat_map. rewrite existsb_app, IH, escape_char_no_surrogate by assumption.
  reflexivity.
Qed.

Lemma uint_codes_no_surrogate (u : Decimal.uint) :
  existsb is_surrogate (uint_codes u) = false.
Proof. induction u; simpl; auto. Qed.

Lemma int_str_no_surrogate (z : Z) : no_surrogate (int_str z) = true.
Proof.
  assert (H : forall n, existsb is_surrogate (nat_str n) = false)
    by (intros n; apply uint_codes_no_surrogate).
  unfold no_surrogate. apply negb_true_iff.
  destruct z; unfold int_str; apply H.
Qed.

Lemma newline_indent_no_surrogate (level : nat) :
  no_surrogate (newline_indent level) = true.
Proof.
  unfold no_surrogate, newline_indent. apply negb_true_iff. simpl.
  induction (level + (level + 0)); simpl; auto.
Qed.

Lemma no_surrogate_app (a b : pystr) :
  no_surrogate (a ++ b) = no_surrogate a && no_surrogate b.
Proof. unfold no_surrogate. now rewrite existsb_app, negb_orb. Qed.

Lemma no_surrogate_cons (c : N) (b : pystr) :
  no_surrogate (c :: b) = negb (is_surrogate c) && no_surrogate b.
Proof. unfold no_surrogate. simpl. now rewrite negb_orb. Qed.

Lemma encode_scalar_no_surrogate (v : json) :
  float_free v = true -> encodable v = true ->
  no_surrogate (encode_scalar v) = true.
Proof.
  destruct v as [|[|]|z|l|s|items|entries]; simpl; intros Hff He;
    try reflexivity; try discriminate.
  - apply int_str_no_surrogate.
  - now apply encode_basestring_no_surrogate.
Qed.

Lemma iterencode_scalar (level : nat) (v : json) :
  is_container v = false -> iterencode level v = [encode_scalar v].
Proof. destruct v; simpl; try discriminate; reflexivity. Qed.

Lemma item_chunks_no_surrogate (level : nat) (buf : pystr) (v : json) :
  no_surrogate buf = true ->
  forallb no_surrogate (iterencode level v) = true ->
  forallb no_surrogate (item_chunks (iterencode level) buf v) = true.
Proof.
  intros Hb Hv. unfold item_chunks. destruct (is_container v) eqn:E.
  - simpl. now rewrite Hb.
  - rewrite iterencode_scalar in Hv by assumption. simpl in Hv |- *.
    rewrite no_surrogate_app, Hb. assumption.
Qed.

Lemma value_chunks_no_surrogate (level : nat) (v : json) :
  forallb no_surrogate (iterencode level v) = true ->
  forallb no_surrogate (value_chunks (iterencode level) v) = true.
Proof.
  intros Hv. unfold value_chunks. destruct (is_container v) eqn:E; [assumption|].
  now rewrite iterencode_scalar in Hv.
Qed.

Lemma list_chunks_no_surrogate (level : nat) (first : bool) (l : list json) :
  Forall (fun v => forall lv, forallb no_surrogate (iterencode lv v) = true) l ->
  forallb no_surrogate
    (list_chunks (iterencode level) (newline_indent level) first l) = true.
Proof.
  intros H. revert first. induction H as [|x l Hx Hl IH]; intros first;
    [reflexivity|].
  cbn [list_chunks]. rewrite forallb_app, IH, andb_true_r.
  apply item_chunks_no_surrogate; [|apply Hx].
  rewrite no_surrogate_cons, newline_indent_no_surrogate.
  destruct first; reflexivity.
Qed.

Lemma dict_chunks_no_surrogate (level : nat) (first : bool)
  (l : list (pystr * json)) :
  Forall (fun kv => no_surrogate (fst kv) = true /\
                    forall lv, forallb no_surrogate (iterencode lv (snd kv)) = true) l ->
  forallb no_surrogate
    (dict_chunks (iterencode level) (newline_indent level) first l) = true.
Proof.
  intros H. revert first. induction H as [|[k v] l [Hk Hv] Hl IH]; intros first;
    [reflexivity|].
  cbn [dict_chunks]. rewrite !forallb_app, IH, andb_true_r.
  rewrite value_chunks_no_surrogate by apply Hv.
  simpl in Hk. cbn [forallb].
  rewrite encode_basestring_no_surrogate by assumption.
  destruct first; cbn [forallb]; rewrite ?no_surrogate_cons,
    ?newline_indent_no_surrogate; reflexivity.
Qed.

(** A value whose strings can all be encoded is written in chunks that
    can all be encoded. *)
Lemma iterencode_no_surrogate (v : json) :
  float_free v = true -> encodable v = true ->
  forall level, forallb no_surrogate (iterencode level v) = true.
Proof.
  induction v as [|b|z|l|s|items IH|entries IH] using json_ind;
    intros Hff He level;
    try (cbn [iterencode forallb]; rewrite encode_scalar_no_surrogate by assumption;
         reflexivity).
  - destruct items as [|x0 l]; [reflexivity|].
    cbn [iterencode]. rewrite forallb_app. cbn [forallb].
    rewrite newline_indent_no_surrogate. rewrite andb_true_r.
    apply list_chunks_no_surrogate.
    cbn [float_free encodable] in Hff, He. rewrite forallb_forall in Hff, He.
    rewrite Forall_forall in IH |- *. intros x Hx lv. apply IH; auto.
  - destruct entries as [|kv0 l]; [reflexivity|].
    cbn [iterencode forallb]. rewrite forallb_app. cbn [forallb].
    rewrite !newline_indent_no_surrogate. rewrite andb_true_r. cbn [andb].
    change (no_surrogate [123%N]) with true. cbn [andb].
    apply dict_chunks_no_surrogate.
    cbn [float_free encodable] in Hff, He. rewrite forallb_forall in Hff, He.
    rewrite Forall_forall in IH |- *. intros x Hx.
    specialize (He x Hx). apply andb_true_iff in He as [He1 He2].
    split; [assumption|]. intros lv. apply IH; auto.
Qed.

Lemma escape_char_surrogate (c : N) :
  existsb is_surrogate (escape_char c) = is_surrogate c.
Proof.
  destruct (is_surrogate c) eqn:H; [|now apply escape_char_no_surrogate].
  assert (L : (55296 <= c)%N).
  { unfold is_surrogate in H. apply andb_true_iff in H as [H _].
    now apply N.leb_le in H. }
  unfold escape_char.
  repeat match goal with
  | |- context [(c =? ?k)%N] => destruct (N.eqb_spec c k); [lia|]
  end.
  destruct (N.ltb_spec c 32); [lia|]. simpl. now rewrite H.
Qed.

Lemma encode_basestring_surrogate (s : pystr) :
  no_surrogate (encode_basestring s) = no_surrogate s.
Proof.
  unfold no_surrogate, encode_basestring. f_equal.
  cbn [existsb]. change (is_surrogate 34) with false. cbn [orb].
  rewrite existsb_app. cbn [existsb]. change (is_surrogate 34) with false.
  cbn [orb]. rewrite orb_false_r.
  induction s as [|c s IH]; [reflexivity|].
  simpl. now rewrite existsb_app, IH, escape_char_surrogate.
Qed.

Lemma encode_scalar_encodable (v : json) :
  float_free v = true -> is_container v = false ->
  no_surrogate (encode_scalar v) = encodable v.
Proof.
  destruct v as [|[|]|z|l|s|items|entries]; simpl; intros Hff Hc;
    try reflexivity; try discriminate.
  - apply int_str_no_surrogate.
  - apply encode_basestring_surrogate.
Qed.

Lemma item_chunks_encodable (level : nat) (buf : pystr) (v : json) :
  no_surrogate buf = true ->
  forallb no_surrogate (item_chunks (iterencode level) buf v)
    = forallb no_surrogate (iterencode level v).
Proof.
  intros Hb. unfold item_chunks. destruct (is_container v) eqn:E.
  - simpl. now rewrite Hb.
  - rewrite iterencode_scalar by assumption. simpl.
    now rewrite no_surrogate_app, Hb.
Qed.

Lemma value_chunks_encodable (level : nat) (v : json) :
  forallb no_surrogate (value_chunks (iterencode level) v)
    = forallb no_surrogate (iterencode level v).
Proof.
  unfold value_chunks. destruct (is_container v) eqn:E; [reflexivity|].
  now rewrite iterencode_scalar.
Qed.

Lemma list_chunks_encodable (level : nat) (first : bool) (l : list json) :
  Forall (fun v => forall lv, forallb no_surrogate (iterencode lv v) = encodable v) l ->
  forallb no_surrogate
    (list_chunks (iterencode level) (newline_indent level) first l)
    = forallb encodable l.
Proof.
  intros H. revert first. induction H as [|x l Hx Hl IH]; intros first;
    [reflexivity|].
  cbn [list_chunks forallb]. rewrite forallb_app, IH.
  rewrite item_chunks_encodable, Hx; [reflexivity|].
  rewrite no_surrogate_cons, newline_indent_no_surrogate.
  destruct first; reflexivity.
Qed.

Lemma dict_chunks_encodable (level : nat) (first : bool)
  (l : list (pystr * json)) :
  Forall (fun kv => forall lv,
              forallb no_surrogate (iterencode lv (snd kv)) = encodable (snd kv)) l ->
  forallb no_surrogate
    (dict_chunks (iterencode level) (newline_indent level) first l)
    = forallb (fun kv => no_surrogate (fst kv) && encodable (snd kv)) l.
Proof.
  intros H. revert first. induction H as [|[k v] l Hv Hl IH]; intros first;
    [reflexivity|].
  cbn [dict_chunks]. rewrite !forallb_app, IH.
  rewrite value_chunks_encodable, Hv. cbn [forallb fst snd].
  rewrite encode_basestring_surrogate.
  change (no_surrogate [58%N; 32%N]) with true.
  destruct first; cbn [forallb]; rewrite ?no_surrogate_cons,
    ?newline_indent_no_surrogate; change (is_surrogate 44) with false;
    cbn [andb negb]; rewrite ?andb_true_r; now rewrite andb_assoc.
Qed.

(** The chunks of a value can all be encoded exactly when its strings
    can. *)
Lemma iterencode_encodable (v : json) :
  float_free v = true ->
  forall level, forallb no_surrogate (iterencode level v) = encodable v.
Proof.
  induction v as [|b|z|l|s|items IH|entries IH] using json_ind;
    intros Hff level;
    try (cbn [iterencode forallb]; rewrite encode_scalar_encodable by auto;
         apply andb_true_r).
  - destruct items as [|x0 l]; [reflexivity|].
    cbn [iterencode]. rewrite forallb_app. cbn [forallb].
    rewrite newline_indent_no_surrogate.
    change (no_surrogate [93%N]) with true. cbn [andb]. rewrite andb_true_r.
    cbn [encodable]. apply list_chunks_encodable.
    cbn [float_free] in Hff. rewrite forallb_forall in Hff.
    rewrite Forall_forall in IH |- *. intros x Hx lv. apply IH; auto.
  - destruct entries as [|kv0 l]; [reflexivity|].
    cbn [iterencode forallb]. rewrite forallb_app. cbn [forallb].
    rewrite !newline_indent_no_surrogate.
    change (no_surrogate [123%N]) with true.
    change (no_surrogate [125%N]) with true. cbn [andb]. rewrite andb_true_r.
    cbn [encodable]. apply dict_chunks_encodable.
    cbn [float_free] in Hff. rewrite forallb_forall in Hff.
    rewrite Forall_forall in IH |- *. intros x Hx lv. apply IH; auto.
Qed.

(** [save_historial] empties the file and writes in place: the file ends
    up with the whole text, or with the part written before the chunk that
    could not be encoded. *)
Lemma save_historial_spec (data : json) (file : option pystr) :
  float_free data = true ->
  (save_historial data file = (Ok tt, Some (json_dumps data)) /\
   forallb no_surrogate (iterencode 0 data) = true) \/
  (exists written rest,
      save_historial data file = (Raise UnicodeEncodeError, Some written) /\
      json_dumps data = written ++ rest /\ existsb is_surrogate rest = true).
Proof.
  intros Hff. unfold save_historial, json_dumps. rewrite Hff.
  destruct (write_chunks_spec (iterencode 0 data) [])
    as [(done & rest & H1 & H2 & H3)|[H1 H2]].
  - right. exists done, rest. rewrite H1. auto.
  - left. rewrite H1. auto.
Qed.

Lemma save_historial_ok (data : json) (file : option pystr) :
  float_free data = true -> encodable data = true ->
  save_historial data file = (Ok tt, Some (json_dumps data)).
Proof.
  intros Hff He.
  destruct (save_historial_spec data file Hff)
    as [[H _]|(written & rest & H & _ & _)]; [assumption|].
  exfalso. unfold save_historial in H. rewrite Hff in H.
  destruct (write_chunks_spec (iterencode 0 data) [])
    as [(done & rest' & H1 & H2 & H3)|[H1 H2]].
  - pose proof (iterencode_no_surrogate data Hff He 0) as Hn.
    assert (Hc : existsb is_surrogate (concat (iterencode 0 data)) = false).
    { clear - Hn. induction (iterencode 0 data) as [|c cs IH]; [reflexivity|].
      simpl in Hn |- *. apply andb_true_iff in Hn as [H1 H2].
      rewrite existsb_app, IH by assumption.
      unfold no_surrogate in H1. apply negb_true_iff in H1. now rewrite H1. }
    rewrite H2, existsb_app, H3, orb_true_r in Hc. discriminate.
  - rewrite H1 in H. discriminate.
Qed.

(** A history with a string that cannot be encoded is not saved: the
    call raises, and leaves in the file what was written before that
    string. *)
Lemma save_historial_fails (data : json) (file : option pystr) :
  float_free data = true -> encodable data = false ->
  exists written rest,
    save_historial data file = (Raise UnicodeEncodeError, Some written) /\
    json_dumps data = written ++ rest /\ existsb is_surrogate rest = true.
Proof.
  intros Hff He.
  destruct (save_historial_spec data file Hff) as [[_ H]|H]; [|exact H].
  rewrite (iterencode_encodable data Hff 0) in H. congruence.
Qed.

(** ** [generate_trivia] *)

Lemma bind_run_lift (A B : Type) (r : result A) (k : A -> run B) (w : World) :
  bind_run (lift r) k w
  = match r with
    | Ok a => k a w
    | Raise e => (Raise e, w)
    end.
Proof. unfold bind_run, lift. destruct r; reflexivity. Qed.

Lemma after_prompt_requests (w : World) (historial : json) (dia_number : Z)
  (prompt : pystr) :
  requests (snd (after_prompt w historial dia_number prompt))
  = requests w ++ [prompt].
Proof.
  unfold after_prompt. repeat break_goal; reflexivity.
Qed.

(** The run, step by step. *)
Lemma generate_trivia_steps (w : World) :
  generate_trivia w =
  if no_key (api_key_env w) then (Raise (SystemExit 1), w) else
  match load_historial (historial_file w) with
  | Raise e => (Raise e, w)
  | Ok historial =>
  match py_len historial with
  | Raise e => (Raise e, w)
  | Ok _ =>
  match next_dia historial with
  | Raise e => (Raise e, w)
  | Ok dia_number =>
  match already_today historial (fecha_of_clock (clock w)) with
  | Raise e => (Raise e, w)
  | Ok true => (Ok tt, w)
  | Ok false =>
  match get_previous_questions historial MAX_CONTEXT_QUESTIONS with
  | Raise e => (Raise e, w)
  | Ok prev_questions =>
  match mapM py_format prev_questions with
  | Raise e => (Raise e, w)
  | Ok texts =>
  after_prompt w historial dia_number (build_prompt texts dia_number)
  end end end end end end.
Proof.
  unfold generate_trivia.
  change (bind_run getenv_api_key ?k w) with (k (api_key_env w) w). cbv beta.
  destruct (no_key (api_key_env w)); [reflexivity|].
  change (bind_run load_run ?k w)
    with (bind_run (lift (load_historial (historial_file w))) k w).
  rewrite bind_run_lift.
  destruct (load_historial (historial_file w)) as [historial|]; [|reflexivity].
  rewrite bind_run_lift. destruct (py_len historial); [|reflexivity].
  rewrite bind_run_lift. destruct (next_dia historial) as [dia|]; [|reflexivity].
  change (bind_run today ?k w) with (k (fecha_of_clock (clock w)) w). cbv beta.
  rewrite bind_run_lift. cbv zeta.
  destruct (already_today historial (fecha_of_clock (clock w))) as [[|]|];
    try reflexivity.
  rewrite bind_run_lift.
  destruct (get_previous_questions historial MAX_CONTEXT_QUESTIONS) as [prev|];
    [|reflexivity].
  rewrite bind_run_lift. destruct (mapM py_format prev) as [texts|]; [|reflexivity].
  cbv zeta. unfold after_prompt. unfold bind_run at 1, chat_completion.
  destruct (groq w (build_prompt texts dia)) as [raw|]; [|reflexivity].
  rewrite bind_run_lift. destruct (text_of_content raw) as [raw_text|]; [|reflexivity].
  rewrite bind_run_lift. destruct (parse_or_exit raw_text) as [new_data|]; [|reflexivity].
  rewrite bind_run_lift.
  destruct (new_day_record dia (fecha_of_clock (clock w)) new_data) as [new_day|];
    [|reflexivity].
  rewrite bind_run_lift.
  destruct (py_insert_front historial new_day) as [historial'|]; [|reflexivity].
  unfold bind_run at 1, save_run. cbn [historial_file add_request].
  destruct (save_historial historial' (historial_file w)) as [[[]|e] file];
    [|reflexivity].
  rewrite bind_run_lift. destruct (summary new_data historial'); reflexivity.
Qed.

Lemma parse_or_exit_ok (raw_text : pystr) (data : json) :
  parse_or_exit raw_text = Ok data <-> parse_response raw_text = Ok data.
Proof.
  unfold parse_or_exit. destruct (parse_response raw_text) as [d|[]];
    split; congruence.
Qed.




(** A history whose front record bears today's date makes the run stop
    before the model is called, with nothing changed. *)
Lemma next_dia_front (fd : list (pystr * json)) (rest : list json)
  (d : json) (n : Z) :
  dict_get fd k_dia = Some d -> int_value d = Ok n ->
  next_dia (JList (JDict fd :: rest)) = Ok (n + 1)%Z.
Proof.
  intros Hd Hn. unfold next_dia, py_add_one. simpl. rewrite Hd. simpl.
  rewrite Hn. reflexivity.
Qed.

Lemma py_len_list (l : list json) : py_len (JList l) = Ok (length l).
Proof. reflexivity. Qed.



Lemma already_today_front (fd : list (pystr * json)) (rest : list json)
  (fecha_hoy : pystr) :
  already_today (JList (JDict fd :: rest)) fecha_hoy
  = Ok (match dict_get fd k_fecha with
        | Some f => eq_str f fecha_hoy
        | None => false
        end).
Proof.
  unfold already_today. simpl. destruct (dict_get fd k_fecha); reflexivity.
Qed.


Lemma already_today_differs (fd : list (pystr * json)) (rest : list json)
  (fecha_hoy : pystr) :
  dict_get fd k_fecha <> Some (JStr fecha_hoy) ->
  already_today (JList (JDict fd :: rest)) fecha_hoy = Ok false.
Proof.
  intros H. rewrite already_today_front.
  destruct (dict_get fd k_fecha) as [[| | | |s| |]|]; try reflexivity.
  simpl. destruct (pystr_eqb s fecha_hoy) eqn:E; [|reflexivity].
  apply pystr_eqb_eq in E. congruence.
Qed.





(** C10.  Only the record in front is compared with today's date: when
    its date is another one, the prompt is built and the model is called,
    whatever the dates of the records behind it. *)
Theorem skip_checks_front_only (w : World) (fd : list (pystr * json))
  (rest prev : list json) (d : Z) (texts : list pystr) :
  no_key (api_key_env w) = false ->
  load_historial (historial_file w) = Ok (JList (JDict fd :: rest)) ->
  dict_get fd k_dia = Some (JInt d) ->
  dict_get fd k_fecha <> Some (JStr (fecha_of_clock (clock w))) ->
  get_previous_questions (JList (JDict fd :: rest)) MAX_CONTEXT_QUESTIONS = Ok prev ->
  mapM py_format prev = Ok texts ->
  generate_trivia w
    = after_prompt w (JList (JDict fd :: rest)) (d + 1)
        (build_prompt texts (d + 1)) /\
  requests (snd (generate_trivia w))
    = requests w ++ [build_prompt texts (d + 1)].
Proof.
  intros Hkey Hload Hd Hf Hprev Htexts.
  assert (G : generate_trivia w
              = after_prompt w (JList (JDict fd :: rest)) (d + 1)
                  (build_prompt texts (d + 1))).
  { rewrite generate_trivia_steps, Hkey, Hload, py_len_list.
    rewrite (next_dia_front fd rest (JInt d) d Hd eq_refl).
    rewrite (already_today_differs _ _ _ Hf), Hprev, Htexts. reflexivity. }
  split; [exact G|]. rewrite G. apply after_prompt_requests.
Qed.

(** ** [save_historial] and [load_historial] *)

(** C3, as the code has it.  [save_historial] writes in place, over
    the file it has emptied: what the file held before plays no part in what
    it holds after.  When every string can be encoded the file ends up with
    the whole serialized history; when one cannot, the call raises and the
    file is left with the chunks written until then, a proper prefix of the
    serialized history. *)
Theorem save_historial_in_place (data : json) (file : option pystr) :
  float_free data = true ->
  save_historial data file = save_historial data None /\
  (encodable data = true ->
   save_historial data file = (Ok tt, Some (json_dumps data))) /\
  (encodable data = false ->
   fst (save_historial data file) = Raise UnicodeEncodeError /\
   exists written rest,
     snd (save_historial data file) = Some written /\
     json_dumps data = written ++ rest /\ rest <> []).
Proof.
  intros Hff. repeat split.
  - unfold save_historial. rewrite Hff. reflexivity.
  - intros He. now apply save_historial_ok.
  - destruct (save_historial_fails data file Hff H)
      as (written & rest & Hs & _ & _). now rewrite Hs.
  - destruct (save_historial_fails data file Hff H)
      as (written & rest & Hs & Hd & Hr).
    exists written, rest. rewrite Hs. repeat split; auto.
    intros ->. discriminate.
Qed.


(** ** A JSON text has no fence line *)

Lemma lexemes_app (a b : pystr) : lexemes a -> lexemes b -> lexemes (a ++ b).
Proof.
  induction 1 as [|c s Hc Hs IH|c t s Hc H96 Hnl Hs IH]; intros Hb.
  - assumption.
  - simpl. apply lex_ws; auto.
  - rewrite <- app_assoc. apply lex_word; auto.
Qed.

Lemma consumes_refl (r : pystr) : consumes r r.
Proof. exists []. split; [reflexivity|constructor]. Qed.

Lemma consumes_trans (s m r : pystr) :
  consumes s m -> consumes m r -> consumes s r.
Proof.
  intros (t1 & -> & H1) (t2 & -> & H2). exists (t1 ++ t2).
  split; [now rewrite app_assoc|now apply lexemes_app].
Qed.

Lemma consumes_skip_ws (s : pystr) : consumes s (skip_ws s).
Proof.
  induction s as [|c s IH]; simpl; [apply consumes_refl|].
  destruct (is_ws c) eqn:E; [|apply consumes_refl].
  destruct IH as (t & Ht & Hl). exists (c :: t). split.
  - simpl. now rewrite <- Ht.
  - now apply lex_ws.
Qed.

Lemma consumes_skip_ws_eq (s r : pystr) : skip_ws s = r -> consumes s r.
Proof. intros <-. apply consumes_skip_ws. Qed.

Lemma consumes_word (c : N) (t r : pystr) :
  py_isspace c = false -> c <> 96%N -> ~ In 10%N (c :: t) ->
  consumes ((c :: t) ++ r) r.
Proof.
  intros Hc H96 Hnl. exists (c :: t). split; [reflexivity|].
  rewrite <- (app_nil_r (c :: t)). apply lex_word; auto. apply lex_nil.
Qed.

Lemma consumes_mark (c : N) (r : pystr) :
  py_isspace c = false -> c <> 96%N -> c <> 10%N -> consumes (c :: r) r.
Proof.
  intros Hc H96 Hnl. apply (consumes_word c [] r); auto.
  simpl. intros [H|[]]. congruence.
Qed.

(** A string has no control character inside, so no line break. *)
Lemma scanstring_text (s k r : pystr) :
  scanstring s = Some (k, r) ->
  exists t, s = t ++ r /\ Forall (fun c => (32 <= c)%N) t.
Proof.
  remember (length s) as n eqn:Hn. revert s k r Hn.
  induction n as [n IH] using lt_wf_ind. intros s k r Hn H.
  assert (Step : forall x (pre tl : pystr),
             s = pre ++ tl -> pre <> [] -> Forall (fun c => (32 <= c)%N) pre ->
             forall k0, cons_char x (scanstring tl) = Some (k0, r) ->
             exists t, s = t ++ r /\ Forall (fun c => (32 <= c)%N) t).
  { intros x pre tl Hs Hpre Hall k0 H0.
    apply cons_char_some in H0 as (k' & H0 & _).
    apply (IH (length tl)) in H0; [| |reflexivity].
    - destruct H0 as (t & -> & Ht). exists (pre ++ t). split.
      + now rewrite <- app_assoc.
      + apply Forall_app. auto.
    - subst s n. rewrite length_app. destruct pre; [congruence|]. simpl. lia. }
  destruct s as [|c s]; [discriminate|]. simpl in H.
  destruct (N.eqb_spec c 34) as [->|H34].
  { injection H as <- <-. exists [34%N]. split; [reflexivity|].
    repeat constructor. lia. }
  destruct (N.eqb_spec c 92) as [->|H92].
  - destruct s as [|e r1]; [discriminate|].
    destruct (N.eqb_spec e 117) as [->|H117].
    + destruct r1 as [|h1 [|h2 [|h3 [|h4 r2]]]]; try discriminate.
      destruct (hex4 h1 h2 h3 h4) as [uni|] eqn:Hh; [|discriminate].
      assert (Hhex : forall a b c d v, hex4 a b c d = Some v ->
                Forall (fun c => (32 <= c)%N) [a; b; c; d]).
      { clear. intros a b c d v. unfold hex4, hex_val.
        repeat match goal with
        | |- context [if ?x then _ else _] => destruct x eqn:?
        end; try discriminate; intros _;
        repeat match goal with
        | H : (_ && _) = true |- _ => apply andb_true_iff in H as [? ?]
        | H : (_ <=? _)%N = true |- _ => apply N.leb_le in H
        end; repeat constructor; lia. }
      pose proof (Hhex _ _ _ _ _ Hh) as Hq.
      assert (Hpre : Forall (fun c => (32 <= c)%N) [92%N; 117%N; h1; h2; h3; h4]).
      { constructor; [lia|]. constructor; [lia|]. exact Hq. }
      assert (T : forall k0, cons_char uni (scanstring r2) = Some (k0, r) ->
                  exists t, 92%N :: 117%N :: h1 :: h2 :: h3 :: h4 :: r2 = t ++ r /\
                            Forall (fun c => (32 <= c)%N) t).
      { intros k0. apply (Step uni [92%N; 117%N; h1; h2; h3; h4] r2);
          [reflexivity|discriminate|assumption]. }
      destruct (is_high_surrogate uni); [|solve [eauto]].
      destruct r2 as [|bs [|u [|l1 [|l2 [|l3 [|l4 r3]]]]]]; try solve [eauto].
      destruct (N.eqb_spec bs 92) as [->|]; [|solve [eauto]].
      destruct (N.eqb_spec u 117) as [->|]; [|solve [eauto]]. cbn [andb] in H.
      destruct (hex4 l1 l2 l3 l4) as [uni2|] eqn:Hh2; [|discriminate].
      destruct (is_low_surrogate uni2); [|solve [eauto]].
      pose proof (Hhex _ _ _ _ _ Hh2) as Hq2.
      apply (Step (join_surrogates uni uni2)
               [92%N; 117%N; h1; h2; h3; h4; 92%N; 117%N; l1; l2; l3; l4] r3 eq_refl)
        in H; [assumption|discriminate|].
      inversion_clear Hq as [|? ? A1 Hq']. inversion_clear Hq' as [|? ? A2 Hq].
      inversion_clear Hq as [|? ? A3 Hq']. inversion_clear Hq' as [|? ? A4 _].
      repeat (constructor; [lia|]). exact Hq2.
    + destruct (unescape e) as [ch|] eqn:He; [|discriminate].
      apply (Step ch [92%N; e] r1 eq_refl) in H; [assumption|discriminate|].
      constructor; [lia|]. constructor; [|constructor].
      unfold unescape in He.
      repeat match type of He with
      | context [(e =? ?x)%N] => destruct (N.eqb_spec e x); [subst; lia|]
      end. discriminate.
  - destruct (N.ltb_spec c 32); [discriminate|].
    apply (Step c [c] s eq_refl) in H; [assumption|discriminate|].
    repeat constructor. assumption.
Qed.

Lemma consumes_string (s k r : pystr) :
  scanstring s = Some (k, r) -> consumes (34%N :: s) r.
Proof.
  intros H. apply scanstring_text in H as (t & -> & Ht).
  apply (consumes_word 34 t r); [reflexivity|discriminate|].
  simpl. intros [H|H]; [discriminate|].
  rewrite Forall_forall in Ht. apply Ht in H. lia.
Qed.

Lemma py_isspace_range (c : N) :
  py_isspace c = true -> (c <= 32 \/ 133 <= c)%N.
Proof.
  unfold py_isspace.
  rewrite !orb_true_iff, !andb_true_iff, !N.leb_le, !N.eqb_eq. lia.
Qed.

Lemma number_char_plain (c : N) :
  number_char c = true -> py_isspace c = false /\ c <> 96%N /\ c <> 10%N.
Proof.
  unfold number_char, is_digit. intros H.
  assert (R : (48 <= c <= 57)%N \/ c = 45%N \/ c = 43%N \/ c = 46%N
              \/ c = 101%N \/ c = 69%N).
  { rewrite !orb_true_iff, andb_true_iff, !N.leb_le, !N.eqb_eq in H. tauto. }
  clear H. split; [|lia].
  destruct (py_isspace c) eqn:E; [|reflexivity].
  apply py_isspace_range in E. lia.
Qed.

Lemma span_digits_digits (s ds r : pystr) :
  span_digits s = (ds, r) -> forallb number_char ds = true.
Proof.
  revert ds r; induction s as [|c s IH]; simpl; intros ds r.
  - intros [= <- <-]. reflexivity.
  - destruct (is_digit c) eqn:E.
    + destruct (span_digits s) as [ds' r'] eqn:E'. intros [= <- <-].
      simpl. unfold number_char at 1. rewrite E. simpl. eapply IH. reflexivity.
    + intros [= <- <-]. reflexivity.
Qed.

Lemma match_number_text (s r : pystr) (v : json) :
  match_number s = Some (v, r) ->
  exists c t, s = (c :: t) ++ r /\ forallb number_char (c :: t) = true.
Proof.
  unfold match_number.
  assert (Hs : exists sg, s = sg ++ snd (split_sign s) /\
                          forallb number_char sg = true).
  { destruct s as [|c s]; [exists []; auto|]. simpl.
    destruct (N.eqb_spec c 45) as [->|]; [exists [45%N]|exists []]; auto. }
  destruct Hs as (sg & Hs & Hsg).
  destruct (split_sign s) as [neg s1]. simpl in Hs.
  destruct (match_int_part s1) as [[ip s2]|] eqn:E1; [|discriminate].
  destruct (match_frac s2) as [fr s3] eqn:E2.
  destruct (match_exp s3) as [ex s4] eqn:E3.
  assert (Hip : forallb number_char ip = true /\ ip <> []).
  { unfold match_int_part in E1. destruct s1 as [|c s1']; [discriminate|].
    destruct (N.eqb_spec c 48) as [->|].
    - injection E1 as <- <-. split; [reflexivity|discriminate].
    - destruct (is_digit c) eqn:Ec; [|discriminate].
      destruct (span_digits s1') as [ds r'] eqn:Ed. injection E1 as <- <-.
      split; [|discriminate]. simpl. unfold number_char at 1. rewrite Ec. simpl.
      eapply span_digits_digits; eassumption. }
  assert (Hfr : forallb number_char fr = true).
  { unfold match_frac in E2. destruct s2 as [|c s2']; [injection E2 as <- <-; auto|].
    destruct (N.eqb_spec c 46) as [->|]; [|injection E2 as <- <-; auto].
    destruct (span_digits s2') as [[|d ds] r'] eqn:Ed; injection E2 as <- <-; auto.
    apply span_digits_digits in Ed. simpl in Ed |- *. exact Ed. }
  assert (Hex : forallb number_char ex = true).
  { unfold match_exp in E3. destruct s3 as [|c s3']; [injection E3 as <- <-; auto|].
    destruct ((c =? 101)%N || (c =? 69)%N) eqn:Ec; [|injection E3 as <- <-; auto].
    assert (Hc : number_char c = true).
    { unfold number_char. apply orb_true_iff in Ec as [-> | ->];
        rewrite ?orb_true_r; reflexivity. }
    destruct s3' as [|g r1]; [injection E3 as <- <-; auto|].
    destruct ((g =? 43)%N || (g =? 45)%N) eqn:Eg.
    - assert (Hg : number_char g = true).
      { unfold number_char. apply orb_true_iff in Eg as [-> | ->];
          rewrite ?orb_true_r; reflexivity. }
      destruct (span_digits r1) as [[|d ds] r'] eqn:Ed; injection E3 as <- <-; auto.
      apply span_digits_digits in Ed. simpl in Ed |- *. now rewrite Hc, Hg.
    - destruct (span_digits (g :: r1)) as [[|d ds] r'] eqn:Ed;
        injection E3 as <- <-; auto.
      apply span_digits_digits in Ed. simpl in Ed |- *. now rewrite Hc. }
  apply match_int_part_app in E1 as [-> _].
  apply match_frac_app in E2 as ->. apply match_exp_app in E3 as ->.
  destruct Hip as [Hip Hne].
  assert (G : exists c t, s = (c :: t) ++ s4 /\ forallb number_char (c :: t) = true).
  { assert (Hall : forallb number_char (sg ++ ip ++ fr ++ ex) = true)
      by (rewrite !forallb_app, Hsg, Hip, Hfr, Hex; reflexivity).
    destruct (sg ++ ip ++ fr ++ ex) as [|c t] eqn:E.
    - destruct sg; [|discriminate]. destruct ip; [congruence|discriminate].
    - exists c, t. split; [|assumption]. rewrite <- E, Hs.
      now rewrite <- !app_assoc. }
  destruct fr, ex; intros [= <- <-]; exact G.
Qed.

Lemma forallb_number_char_no_newline (t : pystr) :
  forallb number_char t = true -> ~ In 10%N t.
Proof.
  rewrite forallb_forall. intros H Hin. apply H in Hin. discriminate.
Qed.

Lemma consumes_keyword (k s : pystr) :
  match k with
  | c :: _ => py_isspace c = false /\ c <> 96%N
  | [] => False
  end ->
  ~ In 10%N k ->
  startswith k s = true -> consumes s (skipn (length k) s).
Proof.
  intros Hk Hnl H. apply startswith_app in H. rewrite H at 1.
  destruct k as [|c t]; [contradiction|]. destruct Hk as [Hc H96].
  now apply consumes_word.
Qed.

Lemma consumes_atom (s r : pystr) (v : json) :
  scan_atom s = Got v r -> consumes s r.
Proof.
  unfold scan_atom.
  assert (K : forall k n,
             match k with
             | c :: _ => py_isspace c = false /\ c <> 96%N
             | [] => False
             end -> ~ In 10%N k -> n = length k ->
             startswith k s = true -> consumes s (skipn n s)).
  { intros k n Hk Hnl ->. now apply consumes_keyword. }
  destruct (startswith kw_null s) eqn:E1.
  { intros [= <- <-]. apply (K kw_null 4); auto; [split|simpl];
      try discriminate; auto. intuition discriminate. }
  destruct (startswith kw_true s) eqn:E2.
  { intros [= <- <-]. apply (K kw_true 4); auto; [split|simpl];
      try discriminate; auto. intuition discriminate. }
  destruct (startswith kw_false s) eqn:E3.
  { intros [= <- <-]. apply (K kw_false 5); auto; [split|simpl];
      try discriminate; auto. intuition discriminate. }
  destruct (match_number s) as [[v' r']|] eqn:Em.
  { intros [= <- <-]. apply match_number_text in Em as (c & t & -> & Ht).
    pose proof (forallb_number_char_no_newline _ Ht) as Hnl.
    simpl in Ht. apply andb_true_iff in Ht as [Hc _].
    apply number_char_plain in Hc as (? & ? & ?).
    now apply consumes_word. }
  destruct (startswith kw_NaN s) eqn:E4.
  { intros [= <- <-]. apply (K kw_NaN 3); auto; [split|simpl];
      try discriminate; auto. intuition discriminate. }
  destruct (startswith kw_Infinity s) eqn:E5.
  { intros [= <- <-]. apply (K kw_Infinity 8); auto; [split|simpl];
      try discriminate; auto. intuition discriminate. }
  destruct (startswith kw_minus_Infinity s) eqn:E6.
  { intros [= <- <-]. apply (K kw_minus_Infinity 9); auto; [split|simpl];
      try discriminate; auto. intuition discriminate. }
  discriminate.
Qed.

Ltac consume_step IH1 IH2 IH3 :=
  match goal with
  | |- consumes ?x ?x => apply consumes_refl
  | H : skip_ws ?a = ?b |- consumes ?a _ =>
      apply (consumes_trans a b); [apply consumes_skip_ws_eq; exact H|]
  | H : scan_once _ ?a = Got _ ?b |- consumes ?a _ =>
      apply (consumes_trans a b); [eapply IH1; exact H|]
  | H : scan_items _ ?a = Got _ ?b |- consumes ?a _ =>
      apply (consumes_trans a b); [eapply IH2; exact H|]
  | H : scan_members _ ?a = Got _ ?b |- consumes (34%N :: ?a) _ =>
      apply (consumes_trans (34%N :: a) b); [eapply IH3; exact H|]
  | H : scanstring ?a = Some (_, ?b) |- consumes (34%N :: ?a) _ =>
      apply (consumes_trans (34%N :: a) b); [eapply consumes_string; exact H|]
  | H : scan_once _ (skip_ws ?a) = Got _ _ |- consumes ?a _ =>
      apply (consumes_trans a (skip_ws a)); [apply consumes_skip_ws|]
  | H : scan_items _ (skip_ws ?a) = Got _ _ |- consumes ?a _ =>
      apply (consumes_trans a (skip_ws a)); [apply consumes_skip_ws|]
  | |- consumes (?c :: ?a) _ =>
      apply (consumes_trans (c :: a) a);
        [apply consumes_mark; [reflexivity|discriminate|discriminate]|]
  end.

(** Whatever the decoder reads is made of blanks and words. *)
Lemma scan_consumes (f : nat) :
  (forall s v r, scan_once f s = Got v r -> consumes s r) /\
  (forall s v r, scan_items f s = Got v r -> consumes s r) /\
  (forall s v r, scan_members f s = Got v r -> consumes (34%N :: s) r).
Proof.
  induction f as [|f (IH1 & IH2 & IH3)]; [repeat split; discriminate|].
  repeat split; intros s v r H; scan_unfold H.
  - destruct s as [|c s0]; [discriminate|].
    repeat break_hyp H; try discriminate; try (injection H as <- <-);
      repeat match goal with
      | E : (_ =? _)%N = true |- _ => apply N.eqb_eq in E; subst
      end; try (now apply consumes_atom in H);
      repeat consume_step IH1 IH2 IH3.
  - repeat break_hyp H; try discriminate; try (injection H as <- <-);
      repeat match goal with
      | E : (_ =? _)%N = true |- _ => apply N.eqb_eq in E; subst
      end; repeat consume_step IH1 IH2 IH3.
  - repeat break_hyp H; try discriminate; try (injection H as <- <-);
      repeat match goal with
      | E : (_ =? _)%N = true |- _ => apply N.eqb_eq in E; subst
      end; repeat consume_step IH1 IH2 IH3.
Qed.

Lemma json_loads_lexemes (body : pystr) (v : json) :
  json_loads body = Ok v -> lexemes body.
Proof.
  intros H. apply json_loads_inv in H as (rest & H & Hr).
  assert (C : consumes body []).
  { eapply consumes_trans; [apply consumes_skip_ws|].
    eapply consumes_trans; [eapply (proj1 (scan_consumes _)); exact H|].
    rewrite <- Hr. apply consumes_skip_ws. }
  destruct C as (t & -> & Ht). now rewrite app_nil_r.
Qed.

(** *** Lines *)

Lemma split_nonempty (sep : N) (s : pystr) : split sep s <> [].
Proof.
  destruct s as [|c s]; simpl; [discriminate|].
  destruct (c =? sep)%N; [discriminate|]. destruct (split sep s); discriminate.
Qed.

Lemma split_cons_other (sep c : N) (s : pystr) :
  c <> sep ->
  exists l ls, split sep s = l :: ls /\ split sep (c :: s) = (c :: l) :: ls.
Proof.
  intros H. simpl. apply N.eqb_neq in H. rewrite H.
  destruct (split sep s) as [|l ls] eqn:E; [now apply split_nonempty in E|].
  eauto.
Qed.

Lemma split_word (sep : N) (w s : pystr) :
  ~ In sep w ->
  exists l ls, split sep s = l :: ls /\ split sep (w ++ s) = (w ++ l) :: ls.
Proof.
  intros H. induction w as [|c w IH]; simpl app.
  - destruct (split sep s) as [|l ls] eqn:E; [now apply split_nonempty in E|].
    eauto.
  - destruct IH as (l & ls & E1 & E2); [simpl in H; tauto|].
    destruct (split_cons_other sep c (w ++ s)) as (l' & ls' & E3 & E4);
      [simpl in H; intros ->; tauto|].
    rewrite E2 in E3. injection E3 as <- <-. eauto.
Qed.

Lemma split_no_sep (sep : N) (w : pystr) : ~ In sep w -> split sep w = [w].
Proof.
  intros H. destruct (split_word sep w [] H) as (l & ls & E1 & E2).
  simpl in E1. injection E1 as <- <-. now rewrite !app_nil_r in E2.
Qed.

Lemma split_app_sep (sep : N) (a b : pystr) :
  split sep (a ++ sep :: b) = split sep a ++ split sep b.
Proof.
  induction a as [|c a IH]; simpl.
  - now rewrite N.eqb_refl.
  - destruct (c =? sep)%N; [now rewrite IH|].
    rewrite IH. destruct (split sep a) as [|l ls] eqn:E;
      [now apply split_nonempty in E|]. reflexivity.
Qed.

Lemma join_split (sep : N) (s : pystr) : join [sep] (split sep s) = s.
Proof.
  induction s as [|c s IH]; [reflexivity|]. simpl.
  destruct (N.eqb_spec c sep) as [->|H].
  - destruct (split sep s) as [|l ls] eqn:E; [now apply split_nonempty in E|].
    simpl in IH |- *. now rewrite IH.
  - destruct (split sep s) as [|l ls] eqn:E; [now apply split_nonempty in E|].
    destruct ls; simpl in IH |- *; now rewrite <- IH.
Qed.

Lemma lstrip_space (c : N) (s : pystr) :
  py_isspace c = true -> lstrip (c :: s) = lstrip s.
Proof. intros H. simpl. now rewrite H. Qed.

Lemma lstrip_tight (c : N) (s : pystr) :
  py_isspace c = false -> lstrip (c :: s) = c :: s.
Proof. intros H. simpl. now rewrite H. Qed.

Lemma is_ws_space (c : N) : is_ws c = true -> py_isspace c = true.
Proof.
  unfold is_ws. rewrite !orb_true_iff, !N.eqb_eq.
  intros [[[-> | ->] | ->] | ->]; reflexivity.
Qed.

(** No line of a text made of blanks and words starts, after white
    space, with a backtick. *)
Lemma lexemes_lines (s : pystr) : lexemes s -> Forall head_ok (split 10 s).
Proof.
  induction 1 as [|c s Hc Hs IH|c t s Hc H96 Hnl Hs IH].
  - repeat constructor.
  - destruct (N.eqb_spec c 10) as [->|Hn].
    + simpl. constructor; [exact I|assumption].
    + destruct (split_cons_other 10 c s Hn) as (l & ls & E1 & E2).
      rewrite E2. rewrite E1 in IH. inversion_clear IH as [|? ? Hl Hls].
      constructor; [|assumption]. unfold head_ok in *.
      now rewrite lstrip_space by now apply is_ws_space.
  - destruct (split_word 10 (c :: t) s Hnl) as (l & ls & E1 & E2).
    rewrite E2. rewrite E1 in IH. inversion_clear IH as [|? ? Hl Hls].
    constructor; [|assumption]. unfold head_ok. simpl app.
    now rewrite lstrip_tight.
Qed.

Lemma lstrip_suffix (s : pystr) : exists z, s = z ++ lstrip s.
Proof.
  induction s as [|c s (z & IH)]; [exists []; reflexivity|]. simpl.
  destruct (py_isspace c); [|exists []; reflexivity].
  exists (c :: z). simpl. now rewrite <- IH.
Qed.

Lemma rstrip_prefix (s : pystr) : exists z, s = rstrip s ++ z.
Proof.
  unfold rstrip. destruct (lstrip_suffix (rev s)) as (z & H).
  exists (rev z). rewrite <- rev_app_distr, <- H. now rewrite rev_involutive.
Qed.

Lemma startswith_prefix (p a z : pystr) :
  startswith p a = true -> startswith p (a ++ z) = true.
Proof.
  revert a; induction p as [|x p IH]; intros [|c a]; simpl; auto; try discriminate.
  rewrite !andb_true_iff. intros [-> H]. auto.
Qed.

Lemma fence_line_head (l : pystr) : is_fence_line l = true -> ~ head_ok l.
Proof.
  unfold is_fence_line, strip, head_ok. intros H.
  destruct (rstrip_prefix (lstrip l)) as (z & Hz).
  apply (startswith_prefix _ _ z) in H. rewrite <- Hz in H.
  destruct (lstrip l) as [|c x]; [discriminate|].
  cbn [startswith fence] in H. apply andb_true_iff in H as [H _].
  apply N.eqb_eq in H. intros Hc. congruence.
Qed.

Lemma json_text_no_fence (body : pystr) (v : json) :
  json_loads body = Ok v ->
  filter (fun l => negb (is_fence_line l)) (split 10 body) = split 10 body.
Proof.
  intros H. apply json_loads_lexemes, lexemes_lines in H.
  induction H as [|l ls Hl Hls IH]; [reflexivity|]. simpl.
  destruct (is_fence_line l) eqn:E.
  - apply fence_line_head in E. contradiction.
  - simpl. now rewrite IH.
Qed.

(** *** White space around a text *)

Lemma rstrip_app_tight (a b : pystr) (c : N) :
  py_isspace c = false -> rstrip ((a ++ [c]) ++ b) = (a ++ [c]) ++ rstrip b.
Proof.
  intros Hc. unfold rstrip. rewrite !rev_app_distr. simpl rev at 2.
  assert (G : forall x y, lstrip (x ++ c :: y) = lstrip x ++ c :: y).
  { intros x y. induction x as [|d x IH]; simpl.
    - now rewrite Hc.
    - destruct (py_isspace d); auto. }
  simpl app. rewrite G, rev_app_distr. simpl. rewrite rev_involutive.
  now rewrite <- app_assoc.
Qed.

Lemma opening_fence_line (tag : pystr) : is_fence_line (fence ++ tag) = true.
Proof.
  unfold is_fence_line, strip.
  replace (lstrip (fence ++ tag)) with (fence ++ tag) by reflexivity.
  change (fence ++ tag) with (([96; 96]%N ++ [96%N]) ++ tag).
  rewrite rstrip_app_tight by reflexivity. reflexivity.
Qed.

(** A character that [str.isspace] takes for white space is none of the
    characters of a JSON token. *)
Lemma space_neq (x c : N) :
  py_isspace x = true -> (33 <= c <= 132)%N -> (x =? c)%N = false.
Proof. intros H Hc. apply py_isspace_range in H. apply N.eqb_neq. lia. Qed.

Lemma space_not_digit (x : N) : py_isspace x = true -> is_digit x = false.
Proof.
  intros H. apply py_isspace_range in H. unfold is_digit.
  destruct (N.leb_spec 48 x), (N.leb_spec x 57); try reflexivity; lia.
Qed.

Lemma space_not_hex (x : N) : py_isspace x = true -> hex_val x = None.
Proof.
  intros H. apply py_isspace_range in H. unfold hex_val.
  repeat match goal with
  | |- context [(?a <=? ?b)%N] => destruct (N.leb_spec a b); try lia
  end; reflexivity.
Qed.

Lemma space_not_escape (x : N) : py_isspace x = true -> unescape x = None.
Proof.
  intros H. unfold unescape. now rewrite !(space_neq x) by (assumption || lia).
Qed.

Lemma space_not_number (x : N) : py_isspace x = true -> number_char x = false.
Proof.
  intros H. unfold number_char.
  rewrite (space_not_digit x H). now rewrite !(space_neq x) by (assumption || lia).
Qed.

Lemma blank_cons (x : N) (w : pystr) :
  blank (x :: w) -> py_isspace x = true /\ blank w.
Proof. unfold blank. simpl. now rewrite andb_true_iff. Qed.

(** *** Numbers and constants *)

Lemma span_digits_blank (w s : pystr) :
  blank w ->
  span_digits (s ++ w) = (fst (span_digits s), snd (span_digits s) ++ w).
Proof.
  intros Hw. induction s as [|c s IH]; simpl.
  - destruct w as [|x w]; [reflexivity|]. apply blank_cons in Hw as [Hx _].
    simpl. now rewrite (space_not_digit x Hx).
  - destruct (is_digit c); [|reflexivity].
    rewrite IH. now destruct (span_digits s).
Qed.

Lemma match_int_part_blank (w s : pystr) :
  blank w ->
  match_int_part (s ++ w)
    = match match_int_part s with
      | Some (ip, r) => Some (ip, r ++ w)
      | None => None
      end.
Proof.
  intros Hw. destruct s as [|c s]; simpl.
  - destruct w as [|x w]; [reflexivity|]. apply blank_cons in Hw as [Hx _].
    simpl. now rewrite (space_neq x 48), (space_not_digit x) by (assumption || lia).
  - destruct (c =? 48)%N; [reflexivity|]. destruct (is_digit c); [|reflexivity].
    rewrite (span_digits_blank w s Hw). now destruct (span_digits s).
Qed.

Lemma match_frac_blank (w s : pystr) :
  blank w ->
  match_frac (s ++ w) = (fst (match_frac s), snd (match_frac s) ++ w).
Proof.
  intros Hw. destruct s as [|c s]; simpl.
  - destruct w as [|x w]; [reflexivity|]. apply blank_cons in Hw as [Hx _].
    simpl. now rewrite (space_neq x 46) by (assumption || lia).
  - destruct (c =? 46)%N; [|reflexivity].
    rewrite (span_digits_blank w s Hw). now destruct (span_digits s) as [[|d ds] r].
Qed.

Lemma match_exp_blank (w s : pystr) :
  blank w ->
  match_exp (s ++ w) = (fst (match_exp s), snd (match_exp s) ++ w).
Proof.
  intros Hw. destruct s as [|c s]; unfold match_exp; cbn [app fst snd].
  - destruct w as [|x w]; [reflexivity|]. apply blank_cons in Hw as [Hx _].
    now rewrite (space_neq x 101), (space_neq x 69) by (assumption || lia).
  - destruct ((c =? 101)%N || (c =? 69)%N); [|reflexivity].
    destruct s as [|sg s]; cbn [app fst snd].
    + destruct w as [|x w]; [reflexivity|]. apply blank_cons in Hw as [Hx _].
      rewrite (space_neq x 43), (space_neq x 45) by (assumption || lia).
      simpl. now rewrite (space_not_digit x Hx).
    + destruct ((sg =? 43)%N || (sg =? 45)%N).
      * rewrite (span_digits_blank w s Hw).
        now destruct (span_digits s) as [[|d ds] r].
      * change (sg :: s ++ w) with ((sg :: s) ++ w).
        rewrite (span_digits_blank w (sg :: s) Hw).
        now destruct (span_digits (sg :: s)) as [[|d ds] r].
Qed.

Lemma split_sign_blank (w s : pystr) :
  blank w ->
  split_sign (s ++ w) = (fst (split_sign s), snd (split_sign s) ++ w).
Proof.
  intros Hw. destruct s as [|c s]; unfold split_sign; cbn [app fst snd].
  - destruct w as [|x w]; [reflexivity|]. apply blank_cons in Hw as [Hx _].
    now rewrite (space_neq x 45) by (assumption || lia).
  - now destruct (c =? 45)%N.
Qed.

Lemma match_number_blank (w s : pystr) :
  blank w ->
  match_number (s ++ w)
    = match match_number s with
      | Some (v, r) => Some (v, r ++ w)
      | None => None
      end.
Proof.
  intros Hw. unfold match_number.
  rewrite (split_sign_blank w s Hw). destruct (split_sign s) as [neg s1].
  cbn [fst snd]. rewrite (match_int_part_blank w s1 Hw).
  destruct (match_int_part s1) as [[ip s2]|]; [|reflexivity].
  rewrite (match_frac_blank w s2 Hw). destruct (match_frac s2) as [frac s3].
  cbn [fst snd]. rewrite (match_exp_blank w s3 Hw).
  destruct (match_exp s3) as [ex s4]. cbn [fst snd].
  destruct frac, ex; reflexivity.
Qed.

Lemma startswith_blank (w k s : pystr) :
  blank w ->
  forallb (fun c => (33 <=? c)%N && (c <=? 132)%N) k = true ->
  startswith k (s ++ w) = startswith k s.
Proof.
  intros Hw. revert s. induction k as [|c k IH]; intros s Hk; [reflexivity|].
  simpl in Hk. apply andb_true_iff in Hk as [Hc Hk].
  apply andb_true_iff in Hc as [H1 H2]. apply N.leb_le in H1, H2.
  destruct s as [|d s]; simpl.
  - destruct w as [|x w]; [reflexivity|]. apply blank_cons in Hw as [Hx _].
    rewrite N.eqb_sym. now rewrite (space_neq x c) by (assumption || lia).
  - now rewrite IH.
Qed.

Lemma skipn_startswith_blank (w k s : pystr) :
  startswith k s = true ->
  skipn (length k) (s ++ w) = skipn (length k) s ++ w.
Proof.
  intros H. apply startswith_skipn_length in H.
  rewrite skipn_app. replace (length k - length s) with 0 by lia. reflexivity.
Qed.

Lemma scan_atom_blank (w s : pystr) :
  blank w ->
  scan_atom (s ++ w)
    = match scan_atom s with
      | Got v r => Got v (r ++ w)
      | Bad => Bad
      | NoFuel => NoFuel
      end.
Proof.
  intros Hw. unfold scan_atom.
  rewrite !(startswith_blank w _ s Hw) by reflexivity.
  rewrite (match_number_blank w s Hw).
  repeat match goal with
  | |- context [startswith ?k s] =>
      let E := fresh "E" in
      destruct (startswith k s) eqn:E;
      [ apply (skipn_startswith_blank w) in E; simpl length in E; now rewrite E |]
  | |- context [match_number s] => destruct (match_number s) as [[v r]|]
  end; reflexivity.
Qed.

(** *** Strings *)

Lemma hex4_none (a b c d : N) :
  hex_val a = None \/ hex_val b = None \/ hex_val c = None \/ hex_val d = None ->
  hex4 a b c d = None.
Proof.
  unfold hex4. destruct (hex_val a), (hex_val b), (hex_val c), (hex_val d);
    intuition congruence.
Qed.

Lemma scanstring_blanks (w : pystr) : blank w -> scanstring w = None.
Proof.
  induction w as [|x w IH]; intros Hw; [reflexivity|].
  apply blank_cons in Hw as [Hx Hw]. cbn [scanstring].
  rewrite (space_neq x 34), (space_neq x 92) by (assumption || lia).
  rewrite (IH Hw). now destruct (x <? 32)%N.
Qed.

Ltac blank_tail H :=
  repeat match type of H with
  | context [match ?v with [] => _ | _ :: _ => _ end] =>
      is_var v; destruct v; cbv beta iota in H
  end.

(** The text ends inside an escape. *)
Ltac escape_cut H w Hw :=
  let x := fresh "x" in
  let Hx := fresh "Hx" in
  destruct w as [|x w]; [discriminate|];
  apply blank_cons in Hw as [Hx Hw];
  pose proof (space_not_hex x Hx);
  blank_tail H; try discriminate;
  rewrite hex4_none in H by auto 6; discriminate.

(** The text ends where the second half of a surrogate pair could be. *)
Ltac pair_cut H w Hw K uni :=
  let x := fresh "x" in
  let Hx := fresh "Hx" in
  destruct w as [|x w];
  [ apply (K uni _); [simpl; lia|exact H] |];
  apply blank_cons in Hw as [Hx Hw];
  pose proof (space_not_hex x Hx);
  blank_tail H;
  rewrite ?(space_neq x 92), ?(space_neq x 117), ?andb_false_r in H
    by (assumption || lia);
  cbv beta iota in H;
  try match type of H with
      | context [if ?b then _ else _] =>
          destruct b; [rewrite hex4_none in H by auto 6; discriminate|]
      end;
  (apply (K uni _); [simpl; lia|exact H]).

Lemma scanstring_blank (w : pystr) (n : nat) :
  blank w ->
  forall s, length s <= n ->
  forall k r', scanstring (s ++ w) = Some (k, r') ->
  exists r, r' = r ++ w /\ scanstring s = Some (k, r).
Proof.
  intros Hw. induction n as [|n IH]; intros s Hn k r' H.
  - destruct s; [|simpl in Hn; lia].
    simpl in H. rewrite (scanstring_blanks w Hw) in H. discriminate.
  - assert (K : forall c s0, length s0 <= n ->
                cons_char c (scanstring (s0 ++ w)) = Some (k, r') ->
                exists r, r' = r ++ w /\ cons_char c (scanstring s0) = Some (k, r)).
    { intros c s0 L E.
      destruct (scanstring (s0 ++ w)) as [[k1 r1]|] eqn:E1; [|discriminate].
      apply IH in E1 as (r & -> & E1); [|assumption].
      rewrite E1. simpl in E |- *. injection E as <-. eauto. }
    clear IH.
    destruct s as [|c s].
    { simpl in H. rewrite (scanstring_blanks w Hw) in H. discriminate. }
    cbn [app scanstring] in H |- *. simpl in Hn.
    destruct (c =? 34)%N. { injection H as <- <-. eauto. }
    destruct (c =? 92)%N.
    2:{ destruct (c <? 32)%N; [discriminate|]. apply K; [lia|assumption]. }
    destruct s as [|e s]; cbn [app] in H |- *.
    { destruct w as [|x w]; [discriminate|]. apply blank_cons in Hw as [Hx Hw].
      rewrite (space_neq x 117), (space_not_escape x) in H by (assumption || lia).
      discriminate. }
    simpl in Hn. destruct (e =? 117)%N.
    2:{ destruct (unescape e); [|discriminate]. apply K; [lia|assumption]. }
    destruct s as [|h1 [|h2 [|h3 [|h4 s]]]]; cbn [app] in H |- *;
      [escape_cut H w Hw | escape_cut H w Hw | escape_cut H w Hw
       | escape_cut H w Hw |].
    simpl in Hn. destruct (hex4 h1 h2 h3 h4) as [uni|]; [|discriminate].
    destruct (is_high_surrogate uni).
    2:{ apply K; [lia|assumption]. }
    destruct s as [|bs [|u [|l1 [|l2 [|l3 [|l4 s]]]]]]; cbn [app] in H |- *;
      [pair_cut H w Hw K uni | pair_cut H w Hw K uni | pair_cut H w Hw K uni
       | pair_cut H w Hw K uni | pair_cut H w Hw K uni | pair_cut H w Hw K uni |].
    simpl in Hn. destruct ((bs =? 92)%N && (u =? 117)%N).
    2:{ apply (K uni (bs :: u :: l1 :: l2 :: l3 :: l4 :: s)); [simpl; lia|exact H]. }
    destruct (hex4 l1 l2 l3 l4) as [uni2|]; [|discriminate].
    destruct (is_low_surrogate uni2).
    + apply K; [lia|assumption].
    + apply (K uni (bs :: u :: l1 :: l2 :: l3 :: l4 :: s)); [simpl; lia|exact H].
Qed.

(** *** Values *)

Lemma skip_ws_blanks (w : pystr) (c : N) (r : pystr) :
  blank w -> skip_ws w = c :: r -> py_isspace c = true.
Proof.
  induction w as [|x w IH]; intros Hw H; [discriminate|].
  apply blank_cons in Hw as [Hx Hw]. simpl in H.
  destruct (is_ws x); [now apply IH|]. now injection H as <- <-.
Qed.

Lemma skip_ws_blank (w s : pystr) (c : N) (r' : pystr) :
  blank w ->
  skip_ws (s ++ w) = c :: r' ->
  py_isspace c = false ->
  exists r, r' = r ++ w /\ skip_ws s = c :: r.
Proof.
  intros Hw H Hc. induction s as [|a s IH]; simpl in H |- *.
  - apply (skip_ws_blanks w c r' Hw) in H. congruence.
  - destruct (is_ws a); [now apply IH|]. injection H as <- <-. eauto.
Qed.

Lemma startswith_space (k s : pystr) (c : N) :
  py_isspace c = true ->
  forallb (fun c => (33 <=? c)%N && (c <=? 132)%N) k = true ->
  k <> [] ->
  startswith k (c :: s) = false.
Proof.
  intros Hc Hk Hn. destruct k as [|x k]; [contradiction|].
  simpl in Hk. apply andb_true_iff in Hk as [Hx _].
  apply andb_true_iff in Hx as [H1 H2]. apply N.leb_le in H1, H2.
  cbn [startswith]. rewrite N.eqb_sym.
  now rewrite (space_neq c x) by (assumption || lia).
Qed.

Lemma scan_atom_space (c : N) (s : pystr) :
  py_isspace c = true -> scan_atom (c :: s) = Bad.
Proof.
  intros Hc. unfold scan_atom.
  rewrite !(startswith_space _ s c Hc) by (reflexivity || discriminate).
  unfold match_number, split_sign, match_int_part.
  rewrite (space_neq c 45), (space_neq c 48), (space_not_digit c)
    by (assumption || lia).
  reflexivity.
Qed.

(** A value starts with a character that is no white space. *)
Lemma scan_once_head (f : nat) (c : N) (s : pystr) (v : json) (r : pystr) :
  scan_once f (c :: s) = Got v r -> py_isspace c = false.
Proof.
  intros H. destruct (py_isspace c) eqn:Hc; [exfalso|reflexivity].
  destruct f as [|f]; [discriminate|]. cbn [scan_once] in H.
  rewrite (space_neq c 34), (space_neq c 123), (space_neq c 91) in H
    by (assumption || lia).
  rewrite (scan_atom_space c s Hc) in H. discriminate.
Qed.

Lemma scan_items_head (f : nat) (c : N) (s : pystr) (v : list json) (r : pystr) :
  scan_items f (c :: s) = Got v r -> py_isspace c = false.
Proof.
  intros H. destruct f as [|f]; [discriminate|]. cbn [scan_items] in H.
  destruct (scan_once f (c :: s)) as [| |v1 r1] eqn:E; try discriminate.
  now apply scan_once_head in E.
Qed.

Lemma scan_once_nil (f : nat) (v : json) (r : pystr) : scan_once f [] <> Got v r.
Proof. destruct f; discriminate. Qed.

Lemma scan_items_nil (f : nat) (v : list json) (r : pystr) :
  scan_items f [] <> Got v r.
Proof. destruct f as [|[|f]]; discriminate. Qed.

(** The delimiter found after white space. *)
Ltac delimiter w Hw E n :=
  match type of E with
  | skip_ws (?s ++ w) = ?c :: ?r1 =>
      let r := fresh "r" in
      let Ec := fresh "Ec" in
      destruct (c =? n)%N eqn:Ec;
      [ apply N.eqb_eq in Ec; subst c;
        apply (skip_ws_blank w s) in E as (r & -> & E);
        [ rewrite E; rewrite ?N.eqb_refl;
          repeat match goal with
          | Ex : (?a =? ?b)%N = false |- context [(?a =? ?b)%N] => rewrite Ex
          end
        | exact Hw | reflexivity ]
      | ]
  end.

(** The start of a value found after white space. *)
Ltac value_start w Hw E Hc :=
  match type of E with
  | skip_ws (?s ++ w) = ?c :: ?r1 =>
      let r := fresh "r" in
      apply (skip_ws_blank w s) in E as (r & -> & E);
      [ rewrite E | exact Hw | exact Hc ]
  end.

(** The next white space to skip. *)
Ltac ws_case H E :=
  match type of H with
  | context [skip_ws (?x ++ ?w)] =>
      destruct (skip_ws (x ++ w)) as [|? ?] eqn:E; [try discriminate H|]
  end.

(** The next call of a scanner. *)
Ltac scan_case H E :=
  match type of H with
  | context [scan_once ?f ?x] =>
      destruct (scan_once f x) as [| |? ?] eqn:E; try discriminate H
  | context [scan_items ?f ?x] =>
      destruct (scan_items f x) as [| |? ?] eqn:E; try discriminate H
  | context [scan_members ?f ?x] =>
      destruct (scan_members f x) as [| |? ?] eqn:E; try discriminate H
  end.

Ltac relocate IH E :=
  match type of E with
  | _ (?c :: ?r ++ _) = _ => apply (IH (c :: r)) in E as (? & -> & E)
  | _ (?r ++ _) = _ => apply IH in E as (? & -> & E)
  end;
  rewrite E.

Ltac scan_done H := injection H as <- <-; eauto.

(** White space after a JSON value is left unread, and plays no part in
    what is read. *)
Lemma scan_blank (w : pystr) (f : nat) :
  blank w ->
  (forall s v r', scan_once f (s ++ w) = Got v r' ->
                  exists r, r' = r ++ w /\ scan_once f s = Got v r) /\
  (forall s v r', scan_items f (s ++ w) = Got v r' ->
                  exists r, r' = r ++ w /\ scan_items f s = Got v r) /\
  (forall s v r', scan_members f (s ++ w) = Got v r' ->
                  exists r, r' = r ++ w /\ scan_members f s = Got v r).
Proof.
  intros Hw. induction f as [|f (IH1 & IH2 & IH3)]; [repeat split; discriminate|].
  repeat split; intros s v r' H; scan_unfold H;
    cbn [scan_once scan_items scan_members].
  - destruct s as [|c s].
    { destruct w as [|x w]; [discriminate|]. apply blank_cons in Hw as [Hx _].
      change (scan_once (S f) (x :: w) = Got v r') in H.
      apply scan_once_head in H. congruence. }
    cbn [app] in H.
    destruct (c =? 34)%N.
    { destruct (scanstring (s ++ w)) as [[str rest]|] eqn:E; [|discriminate].
      apply (scanstring_blank w (length s) Hw s (le_n _)) in E as (r & -> & E).
      rewrite E. scan_done H. }
    destruct (c =? 123)%N.
    { ws_case H E.
      delimiter w Hw E 125%N. { scan_done H. }
      delimiter w Hw E 34%N; [|discriminate].
      scan_case H Em. relocate IH3 Em. scan_done H. }
    destruct (c =? 91)%N.
    { ws_case H E.
      delimiter w Hw E 93%N. { scan_done H. }
      scan_case H Ei. pose proof (scan_items_head _ _ _ _ _ Ei) as Hc.
      value_start w Hw E Hc. rewrite Ec.
      relocate IH2 Ei. scan_done H. }
    change (c :: s ++ w) with ((c :: s) ++ w) in H.
    rewrite (scan_atom_blank w (c :: s) Hw) in H.
    destruct (scan_atom (c :: s)) as [| |v0 r0]; try discriminate.
    scan_done H.
  - scan_case H E1. relocate IH1 E1.
    ws_case H E.
    delimiter w Hw E 93%N. { scan_done H. }
    delimiter w Hw E 44%N; [|discriminate].
    ws_case H E3.
    { scan_case H En. now apply scan_items_nil in En. }
    scan_case H Ei. pose proof (scan_items_head _ _ _ _ _ Ei) as Hc.
    value_start w Hw E3 Hc.
    relocate IH2 Ei. scan_done H.
  - destruct (scanstring (s ++ w)) as [[key r]|] eqn:Ek; [|discriminate].
    apply (scanstring_blank w (length s) Hw s (le_n _)) in Ek as (r0 & -> & Ek).
    rewrite Ek.
    ws_case H E.
    delimiter w Hw E 58%N; [|discriminate].
    ws_case H E2.
    { scan_case H En. now apply scan_once_nil in En. }
    scan_case H E1. pose proof (scan_once_head _ _ _ _ _ E1) as Hc.
    value_start w Hw E2 Hc.
    relocate IH1 E1.
    ws_case H E5.
    delimiter w Hw E5 125%N. { scan_done H. }
    delimiter w Hw E5 44%N; [|discriminate].
    ws_case H E6.
    delimiter w Hw E6 34%N; [|discriminate].
    scan_case H Em. relocate IH3 Em. scan_done H.
Qed.

(** *** [strip] *)

Lemma lstrip_blank (w s : pystr) : blank w -> lstrip (w ++ s) = lstrip s.
Proof.
  induction w as [|x w IH]; intros Hw; [reflexivity|].
  apply blank_cons in Hw as [Hx Hw]. simpl. rewrite Hx. now apply IH.
Qed.

Lemma blank_rev (w : pystr) : blank w -> blank (rev w).
Proof.
  unfold blank. rewrite !forallb_forall. intros H x Hx.
  apply H. now apply in_rev.
Qed.

Lemma rstrip_blank (w : pystr) : blank w -> rstrip w = [].
Proof.
  intros Hw. unfold rstrip.
  rewrite <- (app_nil_r (rev w)), (lstrip_blank (rev w) [] (blank_rev w Hw)).
  reflexivity.
Qed.

(** A text with no white space at either end, between white space. *)
Lemma strip_between (pre post t0 t1 : pystr) (c d : N) :
  blank pre -> blank post ->
  py_isspace c = false -> py_isspace d = false ->
  c :: t0 = t1 ++ [d] ->
  strip (pre ++ (c :: t0) ++ post) = c :: t0.
Proof.
  intros Hpre Hpost Hc Hd E. unfold strip.
  rewrite (lstrip_blank pre _ Hpre). cbn [app].
  rewrite (lstrip_tight c _ Hc).
  change (c :: t0 ++ post) with ((c :: t0) ++ post). rewrite E.
  rewrite (rstrip_app_tight t1 post d Hd), (rstrip_blank post Hpost).
  apply app_nil_r.
Qed.

Lemma skip_ws_split (s : pystr) :
  exists pre, s = pre ++ skip_ws s /\ blank pre.
Proof.
  induction s as [|c s (pre & E & Hpre)]; [exists []; now split|].
  simpl. destruct (is_ws c) eqn:Hc.
  - exists (c :: pre). split; [simpl; congruence|].
    unfold blank. simpl. now rewrite (is_ws_space c Hc).
  - exists []. now split.
Qed.

Lemma skip_ws_nil (s : pystr) : skip_ws s = [] -> blank s.
Proof.
  intros H. destruct (skip_ws_split s) as (pre & E & Hpre).
  rewrite H, app_nil_r in E. now subst.
Qed.

Lemma skip_ws_tight (c : N) (s : pystr) :
  py_isspace c = false -> skip_ws (c :: s) = c :: s.
Proof.
  intros H. simpl. destruct (is_ws c) eqn:E; [|reflexivity].
  apply is_ws_space in E. congruence.
Qed.

Lemma lexemes_head (c : N) (t : pystr) :
  lexemes (c :: t) -> is_ws c = true \/ c <> 96%N.
Proof.
  intros H. inversion H as [|c' s' Hws|c' t' s' _ Hn _ _ E]; [now left|].
  right. cbn [app] in E. congruence.
Qed.

(** A text that [json.loads] accepts is a value between white space;
    [strip] leaves the value, which [json.loads] accepts as well, and which
    does not start with a backtick. *)
Lemma json_loads_strip (body : pystr) (v : json) :
  json_loads body = Ok v ->
  json_loads (strip body) = Ok v /\ startswith fence (strip body) = false.
Proof.
  intros H. apply json_loads_inv in H as (rest & H & Hrest).
  apply skip_ws_nil in Hrest.
  destruct (skip_ws_split body) as (pre & Ebody & Hpre).
  destruct (proj1 (scan_consumes _) _ _ _ H) as (t & Et & Hlex).
  rewrite Et in H.
  destruct (proj1 (scan_blank rest _ Hrest) _ _ _ H) as (r & Er & Ht).
  assert (r = []) as ->.
  { apply (f_equal (@length N)) in Er. rewrite length_app in Er.
    destruct r; [reflexivity|simpl in Er; lia]. }
  clear Er. destruct t as [|c t0]; [now apply scan_once_nil in Ht|].
  pose proof (scan_once_head _ _ _ _ _ Ht) as Hc.
  assert (H96 : c <> 96%N).
  { destruct (lexemes_head c t0 Hlex) as [Hws|H96]; [|exact H96].
    apply is_ws_space in Hws. congruence. }
  destruct (exists_last (l := c :: t0)) as (t1 & d & E); [discriminate|].
  assert (Hd : py_isspace d = false).
  { destruct (py_isspace d) eqn:Hd; [exfalso|reflexivity].
    rewrite E in Ht.
    destruct (proj1 (scan_blank [d] _ ltac:(unfold blank; simpl; now rewrite Hd))
                _ _ _ Ht) as (r & Er & _).
    now destruct r. }
  rewrite Ebody, Et, (strip_between pre rest t0 t1 c d Hpre Hrest Hc Hd E).
  split.
  - apply (json_loads_fuel (c :: t0) (loads_fuel body) v []); [|reflexivity].
    rewrite (skip_ws_tight c t0 Hc). exact Ht.
  - cbn [startswith fence]. apply N.eqb_neq in H96.
    rewrite N.eqb_sym, H96. reflexivity.
Qed.

(** A JSON text is parsed as what it decodes to. *)
Lemma parse_response_plain (body : pystr) (v : json) :
  json_loads body = Ok v -> parse_response body = validate v.
Proof.
  intros H. apply json_loads_strip in H as [H Hf].
  unfold parse_response, clean_response. cbv zeta. now rewrite Hf, H.
Qed.

(** ** Fenced responses *)

(** What [parse_response] hands to the decoder when the text is a JSON
    text between two fence lines: the JSON text. *)
Lemma clean_response_in_fences (pre tag body post : pystr) (v : json) :
  blank pre -> blank post ->
  ~ In 10%N tag ->
  json_loads body = Ok v ->
  clean_response (pre ++ in_fences tag body ++ post) = body.
Proof.
  intros Hpre Hpost Htag Hbody. unfold clean_response.
  assert (S : strip (pre ++ in_fences tag body ++ post) = in_fences tag body).
  { apply (strip_between pre post
             ([96; 96]%N ++ tag ++ [10%N] ++ body ++ [10%N] ++ fence)
             (fence ++ tag ++ [10%N] ++ body ++ [10%N] ++ [96; 96]%N)
             96%N 96%N Hpre Hpost); try reflexivity.
    unfold fence. repeat first [rewrite <- app_assoc | progress cbn [app]].
    reflexivity. }
  rewrite S. cbv zeta. unfold in_fences at 1.
  change (startswith fence (fence ++ ?x)) with true. cbv iota.
  unfold in_fences.
  replace (fence ++ tag ++ [10%N] ++ body ++ [10%N] ++ fence)
    with ((fence ++ tag) ++ 10%N :: body ++ 10%N :: fence)
    by (rewrite <- !app_assoc; reflexivity).
  rewrite !split_app_sep.
  rewrite (split_no_sep 10 (fence ++ tag)), (split_no_sep 10 fence).
  - rewrite !filter_app. cbn [filter].
    rewrite opening_fence_line.
    change (is_fence_line fence) with true. cbn [negb app].
    rewrite (json_text_no_fence body v Hbody), app_nil_r.
    apply join_split.
  - simpl. intuition discriminate.
  - intros H. apply in_app_or in H as [H|H]; [|contradiction].
    simpl in H. intuition discriminate.
Qed.

(** C7.  A text made of a JSON text on the lines between an opening
    fence line, with or without a tag such as [json], and a closing fence
    line, with or without white space around the whole, is parsed as the
    JSON text alone is: the fence lines are dropped, the lines between them
    are what is decoded, and the result, a value or an error, is that of
    validating what the JSON text decodes to. *)
Theorem fenced_response_parsed (pre tag body post : pystr) (v : json) :
  blank pre -> blank post ->
  ~ In 10%N tag ->
  json_loads body = Ok v ->
  clean_response (pre ++ in_fences tag body ++ post) = body /\
  parse_response (pre ++ in_fences tag body ++ post) = parse_response body /\
  parse_response body = validate v.
Proof.
  intros Hpre Hpost Htag Hbody.
  pose proof (clean_response_in_fences pre tag body post v Hpre Hpost Htag Hbody)
    as Hc.
  pose proof (parse_response_plain body v Hbody) as Hp.
  split; [assumption|]. split; [|assumption].
  rewrite Hp. unfold parse_response. now rewrite Hc, Hbody.
Qed.

(** ** Sample runs *)




Lemma skip_checks_front_only_witness :
  load_historial (historial_file shuffled_run)
    = Ok (JList [JDict shuffled_front;
                 sample_day 1 (fecha_of_clock (clock shuffled_run))]) /\
  generate_trivia shuffled_run
    = after_prompt shuffled_run shuffled_history 3
        (build_prompt (map lit ["a"; "b"; "c"; "a"; "b"; "c"]%string) 3) /\
  requests (snd (generate_trivia shuffled_run))
    = [build_prompt (map lit ["a"; "b"; "c"; "a"; "b"; "c"]%string) 3].
Proof.
  assert (H : load_historial (historial_file shuffled_run)
              = Ok (JList [JDict shuffled_front;
                           sample_day 1 (fecha_of_clock (clock shuffled_run))]))
    by (vm_compute; reflexivity).
  split; [exact H|].
  apply (skip_checks_front_only shuffled_run shuffled_front
           [sample_day 1 (lit "2025-11-03")]
           (map (fun s => JStr (lit s)) ["a"; "b"; "c"; "a"; "b"; "c"]%string)
           2 (map lit ["a"; "b"; "c"; "a"; "b"; "c"]%string)).
  - reflexivity.
  - vm_compute. reflexivity.
  - reflexivity.
  - vm_compute. discriminate.
  - vm_compute. reflexivity.
  - vm_compute. reflexivity.
Defined.

Lemma get_previous_questions_cap_witness :
  length (all_texts long_history) = 63 /\
  get_previous_questions (JList long_history) MAX_CONTEXT_QUESTIONS
    = Ok (firstn 60 (all_texts long_history)) /\
  length (firstn 60 (all_texts long_history)) = 60.
Proof.
  split; [reflexivity|].
  destruct (proj1 get_previous_questions_cap long_history) as (H1 & H2 & _);
    [vm_compute; reflexivity|].
  split; [exact H1|]. apply H2. vm_compute. lia.
Defined.

Lemma save_historial_in_place_witness :
  save_historial surrogate_history (Some (json_dumps shuffled_history))
    = save_historial surrogate_history None /\
  fst (save_historial surrogate_history (Some (json_dumps shuffled_history)))
    = Raise UnicodeEncodeError /\
  exists written rest,
    snd (save_historial surrogate_history (Some (json_dumps shuffled_history)))
      = Some written /\
    json_dumps surrogate_history = written ++ rest /\
    length rest = 9.
Proof.
  destruct (save_historial_in_place surrogate_history
              (Some (json_dumps shuffled_history)))
    as (H1 & _ & H); [reflexivity|].
  destruct H as (H2 & written & rest & Hw & Hd & _); [reflexivity|].
  split; [exact H1|]. split; [exact H2|].
  exists written, rest. split; [exact Hw|]. split; [exact Hd|].
  vm_compute in Hw. injection Hw as <-.
  vm_compute in Hd. injection Hd as <-. reflexivity.
Defined.

(** The spec's [save] leaves the previous file intact when it is
    interrupted; [save_historial] does not.  With a history file holding one
    record, and a reply of the model that decodes to half of a surrogate
    pair, the run raises while the file is written: the file, which could be
    loaded before, is left cut in the middle of the new record, and the next
    run fails on it. *)
Lemma save_historial_truncates_file :
  (exists old_history,
      load_historial (historial_file truncated_escape_run) = Ok old_history) /\
  generate_trivia truncated_escape_run
    = (Raise UnicodeEncodeError, after_truncated_escape_run) /\
  option_map (@length N) (historial_file truncated_escape_run) = Some 702 /\
  option_map (@length N) (historial_file after_truncated_escape_run) = Some 661 /\
  load_historial (historial_file after_truncated_escape_run)
    = Raise JSONDecodeError /\
  generate_trivia after_truncated_escape_run
    = (Raise JSONDecodeError, after_truncated_escape_run) /\
  save_historial surrogate_history (Some (json_dumps shuffled_history))
    = (Raise UnicodeEncodeError,
       Some (dq "[
  {
    'dia': 1,
    'fecha': '2024-01-01',
    'preguntas': [],
    'mensaje_burla': ")).
Proof.
  split; [eexists; vm_compute; reflexivity|].
  repeat split; vm_compute; reflexivity.
Qed.



Lemma fenced_response_parsed_witness :
  clean_response ([] ++ in_fences (lit "json") sample_response ++ [10%N])
    = sample_response /\
  parse_response ([] ++ in_fences (lit "json") sample_response ++ [10%N])
    = parse_response sample_response /\
  parse_response sample_response = validate sample_data.
Proof.
  apply (fenced_response_parsed [] (lit "json") sample_response [10%N] sample_data).
  - reflexivity.
  - reflexivity.
  - simpl. lia.
  - vm_compute. reflexivity.
Defined.

(* ================================================================== *)
(** * More on [get_previous_questions] *)
(* ================================================================== *)

(** The test [len(questions) >= max_questions] comes after an [append]:
    a cap below one acts as a cap of one. *)
Lemma questions_loop_max (qs acc : list json) (m : Z) :
  questions_loop qs acc m = questions_loop qs acc (Z.max m 1).
Proof.
  revert acc; induction qs as [|q qs IH]; intros acc; [reflexivity|].
  cbn [questions_loop]. destruct (py_getitem q k_pregunta) as [t|e]; [|reflexivity].
  cbn [bind]. rewrite length_app. cbn [length].
  destruct (Z.geb_spec (Z.of_nat (length acc + 1)) m),
           (Z.geb_spec (Z.of_nat (length acc + 1)) (Z.max m 1));
    try reflexivity; try lia. apply IH.
Qed.

Lemma days_loop_max (days acc : list json) (m : Z) :
  days_loop days acc m = days_loop days acc (Z.max m 1).
Proof.
  revert acc; induction days as [|day days IH]; intros acc; [reflexivity|].
  cbn [days_loop]. destruct (py_get day k_preguntas (JList [])) as [p|]; [|reflexivity].
  cbn [bind]. destruct (py_iter p) as [qs|]; [|reflexivity]. cbn [bind].
  rewrite <- questions_loop_max.
  destruct (questions_loop qs acc m) as [[r|r]|]; cbn [bind]; auto.
Qed.

Lemma questions_loop_not_reached (good rest acc : list json) (m : nat) :
  forallb stored_question_ok good = true ->
  length acc + length good < m ->
  questions_loop (good ++ rest) acc (Z.of_nat m)
  = questions_loop rest (acc ++ map question_text good) (Z.of_nat m).
Proof.
  revert acc; induction good as [|q good IH]; intros acc Hok Hlt.
  - simpl. now rewrite app_nil_r.
  - simpl in Hok. apply andb_true_iff in Hok as [Hq Hgood].
    destruct q as [| | | | |?|d]; try discriminate. simpl in Hq, Hlt.
    cbn [app questions_loop py_getitem question_text map].
    destruct (dict_get d k_pregunta) as [t|]; [|discriminate]. cbn [bind].
    rewrite length_app. cbn [length].
    destruct (Z.geb_spec (Z.of_nat (length acc + 1)) (Z.of_nat m)); [lia|].
    rewrite IH; [|assumption|rewrite length_app; simpl; lia].
    now rewrite <- app_assoc.
Qed.

Lemma days_loop_not_reached (days rest acc : list json) (m : nat) :
  forallb stored_day_ok days = true ->
  length acc + length (all_texts days) < m ->
  days_loop (days ++ rest) acc (Z.of_nat m)
  = days_loop rest (acc ++ all_texts days) (Z.of_nat m).
Proof.
  unfold all_texts.
  revert acc; induction days as [|day days IH]; intros acc Hok Hlt.
  - simpl. now rewrite app_nil_r.
  - simpl in Hok. apply andb_true_iff in Hok as [Hday Hdays].
    destruct day as [| | | | |?|d]; try discriminate.
    cbn [flat_map] in Hlt |- *. rewrite length_app in Hlt.
    cbn [app days_loop py_get day_texts] in Hlt |- *. simpl in Hday.
    destruct (dict_get d k_preguntas) as [p|] eqn:Hp; cbn [bind py_iter].
    + destruct p as [| | | | |qs|?]; try discriminate. cbn [py_iter bind].
      rewrite length_map in Hlt.
      rewrite questions_loop_spec by (assumption || lia). cbn [bind].
      destruct (Nat.leb_spec m (length acc + length qs)); [lia|].
      rewrite IH; [|assumption|rewrite length_app, length_map; lia].
      now rewrite <- app_assoc.
    + cbn [questions_loop bind]. now rewrite IH.
Qed.

Lemma days_loop_reached (days junk acc : list json) (m : nat) :
  forallb stored_day_ok days = true ->
  length acc < m ->
  m <= length acc + length (all_texts days) ->
  days_loop (days ++ junk) acc (Z.of_nat m)
  = Ok (firstn m (acc ++ all_texts days)).
Proof.
  unfold all_texts.
  revert acc; induction days as [|day days IH]; intros acc Hok Hlt Hle.
  - simpl in Hle. lia.
  - simpl in Hok. apply andb_true_iff in Hok as [Hday Hdays].
    destruct day as [| | | | |?|d]; try discriminate.
    cbn [flat_map] in Hle |- *. rewrite length_app in Hle.
    cbn [app days_loop py_get day_texts] in Hle |- *. simpl in Hday.
    destruct (dict_get d k_preguntas) as [p|] eqn:Hp; cbn [bind py_iter].
    + destruct p as [| | | | |qs|?]; try discriminate. cbn [py_iter bind].
      rewrite length_map in Hle.
      rewrite questions_loop_spec by assumption. cbn [bind].
      destruct (Nat.leb_spec m (length acc + length qs)) as [Hr|Hr].
      * f_equal. rewrite app_assoc.
        rewrite (firstn_app m (acc ++ map question_text qs)).
        replace (m - length (acc ++ map question_text qs)) with 0
          by (rewrite length_app, length_map; lia).
        simpl. now rewrite app_nil_r.
      * rewrite IH; try assumption.
        -- now rewrite <- app_assoc.
        -- rewrite length_app, length_map. lia.
        -- rewrite length_app, length_map. lia.
    + cbn [questions_loop bind]. now rewrite IH.
Qed.

(** X1.  Whatever the cap, [get_previous_questions] hands back the first
    questions of a well-formed history, most recent day first: as many as the
    cap says, and one when the cap is below one.  *)
Theorem get_previous_questions_any_cap (days : list json) (m : Z) :
  forallb stored_day_ok days = true ->
  get_previous_questions (JList days) m
  = Ok (firstn (Z.to_nat (Z.max m 1)) (all_texts days)).
Proof.
  intros Hok. unfold get_previous_questions. cbn [py_iter bind].
  rewrite days_loop_max.
  rewrite <- (Z2Nat.id (Z.max m 1)) at 1 by lia.
  rewrite days_loop_spec by (assumption || simpl; lia). reflexivity.
Qed.

(** X2.  Once the cap is reached the function returns: the days after
    the one that fills the cap are not looked at, whatever they hold. *)
Theorem get_previous_questions_stops_at_cap (days junk : list json) (m : Z) :
  forallb stored_day_ok days = true ->
  (Z.max m 1 <= Z.of_nat (length (all_texts days)))%Z ->
  get_previous_questions (JList (days ++ junk)) m
  = Ok (firstn (Z.to_nat (Z.max m 1)) (all_texts days)).
Proof.
  intros Hok Hle. unfold get_previous_questions. cbn [py_iter bind].
  rewrite days_loop_max.
  rewrite <- (Z2Nat.id (Z.max m 1)) at 1 by lia.
  rewrite days_loop_reached by (assumption || simpl; lia). reflexivity.
Qed.

(** X3.  A question without the key ["pregunta"] that is read before the
    cap is reached makes the function raise [KeyError]. *)
Theorem get_previous_questions_missing_pregunta
  (days junk good more : list json) (d qd : list (pystr * json)) (m : Z) :
  forallb stored_day_ok days = true ->
  dict_get d k_preguntas = Some (JList (good ++ JDict qd :: more)) ->
  forallb stored_question_ok good = true ->
  dict_get qd k_pregunta = None ->
  (Z.of_nat (length (all_texts days) + length good) < Z.max m 1)%Z ->
  get_previous_questions (JList (days ++ JDict d :: junk)) m = Raise KeyError.
Proof.
  intros Hok Hd Hgood Hqd Hlt. unfold get_previous_questions. cbn [py_iter bind].
  rewrite days_loop_max.
  rewrite <- (Z2Nat.id (Z.max m 1)) by lia.
  rewrite days_loop_not_reached by (assumption || simpl; lia).
  cbn [days_loop py_get app]. rewrite Hd. cbn [bind py_iter].
  rewrite questions_loop_not_reached
    by (assumption || (simpl; lia)).
  cbn [questions_loop py_getitem]. now rewrite Hqd.
Qed.

(* ================================================================== *)
(** * More on [build_prompt] *)
(* ================================================================== *)

Lemma startswith_self_app (p s : pystr) : startswith p (p ++ s) = true.
Proof. induction p as [|c p IH]; [reflexivity|]. simpl. now rewrite N.eqb_refl. Qed.

Lemma str_contains_app (sub a b : pystr) :
  str_contains sub (a ++ sub ++ b) = true.
Proof.
  induction a as [|c a IH].
  - cbn [app]. destruct (sub ++ b) eqn:E; cbn [str_contains];
      rewrite <- E, startswith_self_app; reflexivity.
  - cbn [app str_contains]. rewrite IH. apply orb_true_r.
Qed.

Lemma join_bullet_line (q : pystr) (qs : list pystr) :
  In q qs ->
  exists a b,
    [10%N] ++ join [10%N] (map bullet qs) ++ [10%N]
    = a ++ [10%N] ++ bullet q ++ [10%N] ++ b.
Proof.
  induction qs as [|q0 qs IH]; [contradiction|]. intros [->|Hin].
  - exists []. destruct qs as [|q1 qs].
    + exists []. reflexivity.
    + exists (join [10%N] (map bullet (q1 :: qs)) ++ [10%N]).
      cbn [map join]. now rewrite <- !app_assoc.
  - destruct qs as [|q1 qs]; [contradiction|].
    destruct (IH Hin) as (a & b & E).
    exists ([10%N] ++ bullet q0 ++ a), b.
    change (join [10%N] (map bullet (q0 :: q1 :: qs)))
      with (bullet q0 ++ [10%N] ++ join [10%N] (map bullet (q1 :: qs))).
    rewrite <- !app_assoc. rewrite <- ?app_assoc in E.
    do 2 f_equal. exact E.
Qed.

(** X4.  Every previous question is in the prompt, as a line ["  - "]
    followed by the question, and the prompt ends by naming the day. *)
Theorem build_prompt_mentions (qs : list pystr) (n : Z) (q : pystr) :
  In q qs ->
  (exists a b, build_prompt qs n = a ++ [10%N] ++ bullet q ++ [10%N] ++ b) /\
  str_contains (lit "- Este es el día #" ++ int_str n ++ lit " de CulturIA.")
    (build_prompt qs n) = true.
Proof.
  intros Hin. split.
  - destruct (join_bullet_line q qs Hin) as (a & b & E).
    assert (Eh : prompt_head = removelast prompt_head ++ [10%N]) by reflexivity.
    assert (Em : prompt_middle = [10%N] ++ tl prompt_middle) by reflexivity.
    set (h0 := removelast prompt_head) in *. set (m0 := tl prompt_middle) in *.
    exists (h0 ++ a), (b ++ m0 ++ int_str n ++ prompt_tail).
    unfold build_prompt. destruct qs as [|q0 qs]; [contradiction|].
    set (J := join [10%N] (map bullet (q0 :: qs))) in *.
    rewrite Eh, Em.
    transitivity (h0 ++ ([10%N] ++ J ++ [10%N]) ++ m0 ++ int_str n ++ prompt_tail).
    + now rewrite <- !app_assoc.
    + rewrite E. now rewrite <- !app_assoc.
  - unfold build_prompt.
    set (prev := match qs with [] => no_questions_yet | _ :: _ => _ end).
    set (l1 := lit "- Este es el día #"). set (l2 := lit " de CulturIA.").
    assert (Em : prompt_middle
                 = firstn (length prompt_middle - 18) prompt_middle ++ l1)
      by reflexivity.
    assert (Et : prompt_tail = l2 ++ [10%N]) by reflexivity.
    set (m1 := firstn (length prompt_middle - 18) prompt_middle) in *.
    rewrite Em, Et.
    replace (prompt_head ++ prev ++ (m1 ++ l1) ++ int_str n ++ l2 ++ [10%N])
      with ((prompt_head ++ prev ++ m1) ++ (l1 ++ int_str n ++ l2) ++ [10%N])
      by (now rewrite <- !app_assoc).
    apply str_contains_app.
Qed.

(* ================================================================== *)
(** * More on [parse_response] *)
(* ================================================================== *)

(** X5.  The fence lines are taken out only when the text starts with
    one: a text with a fence line further down, after a sentence say, is
    handed to the decoder as it is and is no JSON. *)
Theorem late_fence_rejected (text : pystr) :
  startswith fence (strip text) = false ->
  existsb is_fence_line (split 10 (strip text)) = true ->
  parse_response text = Raise JSONDecodeError.
Proof.
  intros Hs Hf. unfold parse_response, clean_response. cbv zeta. rewrite Hs.
  destruct (json_loads (strip text)) as [v|e] eqn:E.
  - exfalso. apply json_text_no_fence in E.
    apply existsb_exists in Hf as (l & Hin & Hl).
    rewrite <- E in Hin. apply filter_In in Hin as [_ Hn].
    rewrite Hl in Hn. discriminate.
  - apply json_loads_error in E as ->. reflexivity.
Qed.

Lemma skip_ws_split_ws (s : pystr) :
  exists pre, s = pre ++ skip_ws s /\ forallb is_ws pre = true.
Proof.
  induction s as [|c s (pre & E & Hpre)]; [exists []; now split|].
  simpl. destruct (is_ws c) eqn:Hc.
  - exists (c :: pre). split; [simpl; congruence|]. simpl. now rewrite Hc.
  - exists []. now split.
Qed.

Lemma skip_ws_app_ws (pre s : pystr) :
  forallb is_ws pre = true -> skip_ws (pre ++ s) = skip_ws s.
Proof.
  induction pre as [|c pre IH]; [reflexivity|]. simpl.
  intros H. apply andb_true_iff in H as [-> H]. auto.
Qed.

Lemma ws_blank (w : pystr) : forallb is_ws w = true -> blank w.
Proof.
  unfold blank. rewrite !forallb_forall. intros H x Hx.
  apply is_ws_space. auto.
Qed.

Lemma blank_app (a b : pystr) : blank a -> blank b -> blank (a ++ b).
Proof. unfold blank. intros Ha Hb. now rewrite forallb_app, Ha, Hb. Qed.

(** A text that [json.loads] accepts: white space, a value that starts
    and ends with a character that is no white space, white space. *)
Lemma json_loads_parts (body : pystr) (v : json) :
  json_loads body = Ok v ->
  exists b1 c t0 t1 d b2,
    body = b1 ++ (c :: t0) ++ b2 /\
    forallb is_ws b1 = true /\ blank b2 /\
    py_isspace c = false /\ py_isspace d = false /\
    c :: t0 = t1 ++ [d] /\
    json_loads (b1 ++ c :: t0) = Ok v.
Proof.
  intros H. apply json_loads_inv in H as (rest & H & Hrest).
  apply skip_ws_nil in Hrest.
  destruct (skip_ws_split_ws body) as (pre & Ebody & Hpre).
  destruct (proj1 (scan_consumes _) _ _ _ H) as (t & Et & Hlex).
  rewrite Et in H.
  destruct (proj1 (scan_blank rest _ Hrest) _ _ _ H) as (r & Er & Ht).
  assert (r = []) as ->.
  { apply (f_equal (@length N)) in Er. rewrite length_app in Er.
    destruct r; [reflexivity|simpl in Er; lia]. }
  clear Er. destruct t as [|c t0]; [now apply scan_once_nil in Ht|].
  pose proof (scan_once_head _ _ _ _ _ Ht) as Hc.
  destruct (exists_last (l := c :: t0)) as (t1 & d & E); [discriminate|].
  assert (Hd : py_isspace d = false).
  { destruct (py_isspace d) eqn:Hd; [exfalso|reflexivity].
    rewrite E in Ht.
    destruct (proj1 (scan_blank [d] _ ltac:(unfold blank; simpl; now rewrite Hd))
                _ _ _ Ht) as (r & Er & _).
    now destruct r. }
  exists pre, c, t0, t1, d, rest. repeat split; try assumption.
  - now rewrite Ebody at 1; rewrite Et.
  - apply (json_loads_fuel _ (loads_fuel body) v []); [|reflexivity].
    rewrite (skip_ws_app_ws pre _ Hpre), (skip_ws_tight c t0 Hc). exact Ht.
Qed.

(** X6.  A closing fence is not needed: a JSON text after an opening
    fence line alone is parsed as the JSON text is. *)
Theorem unclosed_fence_parsed (pre tag body post : pystr) (v : json) :
  blank pre -> blank post ->
  ~ In 10%N tag ->
  json_loads body = Ok v ->
  parse_response (pre ++ (fence ++ tag ++ [10%N] ++ body) ++ post)
  = parse_response body /\
  parse_response body = validate v.
Proof.
  intros Hpre Hpost Htag Hbody.
  pose proof (parse_response_plain body v Hbody) as Hp.
  split; [|assumption]. rewrite Hp.
  destruct (json_loads_parts body v Hbody)
    as (b1 & c & t0 & t1 & d & b2 & -> & Hb1 & Hb2 & Hc & Hd & E & Hl).
  unfold parse_response, clean_response. cbv zeta.
  assert (S : strip (pre ++ (fence ++ tag ++ [10%N] ++ b1 ++ (c :: t0) ++ b2) ++ post)
              = fence ++ tag ++ [10%N] ++ b1 ++ c :: t0).
  { replace (pre ++ (fence ++ tag ++ [10%N] ++ b1 ++ (c :: t0) ++ b2) ++ post)
      with (pre ++ (96%N :: [96; 96]%N ++ tag ++ [10%N] ++ b1 ++ c :: t0)
                ++ (b2 ++ post))
      by (unfold fence; repeat first [rewrite <- app_assoc | progress cbn [app]];
          reflexivity).
    apply (strip_between pre (b2 ++ post) _
             ((fence ++ tag ++ [10%N] ++ b1 ++ t1)) 96%N d);
      auto using blank_app.
    rewrite E. unfold fence.
    repeat first [rewrite <- app_assoc | progress cbn [app]]. reflexivity. }
  rewrite S.
  change (startswith fence (fence ++ ?x)) with true. cbv iota.
  replace (fence ++ tag ++ [10%N] ++ b1 ++ c :: t0)
    with ((fence ++ tag) ++ 10%N :: (b1 ++ c :: t0))
    by (now rewrite <- !app_assoc).
  rewrite split_app_sep, (split_no_sep 10 (fence ++ tag)).
  - cbn [app filter]. rewrite opening_fence_line. cbn [negb].
    rewrite (json_text_no_fence _ v Hl), join_split, Hl. reflexivity.
  - intros H. apply in_app_or in H as [H|H]; [|contradiction].
    simpl in H. intuition discriminate.
Qed.

Lemma check_questions_app (i : nat) (good rest : list json) :
  forallb (question_shape true) good = true ->
  check_questions i (good ++ rest) = check_questions (i + length good) rest.
Proof.
  revert i; induction good as [|q good IH]; intros i H.
  - simpl. now rewrite Nat.add_0_r.
  - simpl in H. apply andb_true_iff in H as [Hq Hgood].
    cbn [app check_questions length].
    rewrite (proj2 (check_question_ok i q) Hq). cbn [bind].
    rewrite IH by assumption. f_equal. lia.
Qed.

(** X7.  The questions are checked in order and the first one that
    fails decides: what is raised is what its check raises, and the
    questions after it are not looked at. *)
Theorem first_bad_question_reported (text : pystr) (d : list (pystr * json))
  (good rest : list json) (q m : json) (e : exc) :
  json_loads (clean_response text) = Ok (JDict d) ->
  dict_get d k_preguntas = Some (JList (good ++ q :: rest)) ->
  dict_get d k_mensaje_burla = Some m ->
  length (good ++ q :: rest) = 3 ->
  forallb (question_shape true) good = true ->
  check_question (length good) q = Raise e ->
  parse_response text = Raise e.
Proof.
  intros Hl Hp Hm Hn Hgood Hq. unfold parse_response. rewrite Hl. cbn [bind].
  unfold validate, check, py_assert. cbn [py_contains bind].
  rewrite Hp, Hm. cbn [bind py_getitem]. rewrite Hp. cbn [bind py_len py_iter].
  rewrite Hn. cbn [Nat.eqb bind].
  rewrite check_questions_app by assumption.
  cbn [check_questions Nat.add bind]. now rewrite Hq.
Qed.

(* ================================================================== *)
(** * More on [generate_trivia] *)
(* ================================================================== *)

(** The steps of a run up to the prompt, one case each. *)
Ltac run_steps H :=
  repeat match type of H with
  | (if ?x then _ else _) = _ => destruct x
  | (match ?x with Ok _ => _ | Raise _ => _ end) = _ => destruct x
  end.



Lemma mapM_pregunta (qs : list json) :
  forallb (question_shape true) qs = true ->
  exists ts, mapM (fun q => py_getitem q k_pregunta) qs = Ok ts.
Proof.
  induction qs as [|q qs IH]; intros H; [now exists []|].
  simpl in H. apply andb_true_iff in H as [Hq Hqs].
  destruct (IH Hqs) as (ts & E). cbn [mapM]. rewrite E.
  destruct q as [| | | | | |d]; try discriminate. cbn [question_shape] in Hq.
  cbn [py_getitem]. destruct (dict_get d k_pregunta) as [t|]; [|discriminate].
  exists (t :: ts). reflexivity.
Qed.

(** The lines printed at the end cannot fail on a response that passed
    the checks. *)
Lemma summary_ok (new_data : json) (l : list json) :
  response_shape true new_data = true -> summary new_data (JList l) = Ok tt.
Proof.
  intros H. destruct new_data as [| | | | | |d]; try discriminate.
  cbn [response_shape] in H. unfold summary. cbn [py_getitem].
  destruct (dict_get d k_preguntas) as [[| | | | |qs|]|]; try discriminate.
  destruct (dict_get d k_mensaje_burla); [|discriminate].
  apply andb_true_iff in H as [_ H]. cbn [bind py_iter].
  destruct (mapM_pregunta qs H) as (ts & ->). reflexivity.
Qed.


Lemma parse_response_shape (raw : pystr) (data : json) :
  parse_response raw = Ok data -> response_shape true data = true.
Proof.
  unfold parse_response.
  destruct (json_loads (clean_response raw)) as [v|]; cbn [bind]; [|discriminate].
  intros H. now apply validate_ok in H as [-> H].
Qed.

Lemma save_historial_raises (data : json) (file file' : option pystr) (e : exc) :
  save_historial data file = (Raise e, file') ->
  e = UnicodeEncodeError \/ e = OutsideModel.
Proof.
  unfold save_historial. destruct (float_free data) eqn:Hff.
  - destruct (write_chunks_spec (iterencode 0 data) [])
      as [(done & rest & H1 & _)|[H1 _]]; rewrite H1; intros [= <- _]; auto.
  - intros [= <- _]. auto.
Qed.

(** X9.  A run that fails leaves the history file as it was, unless the
    failure is that of writing the file. *)
Theorem failed_run_keeps_file (w w1 : World) (e : exc) :
  generate_trivia w = (Raise e, w1) ->
  e <> UnicodeEncodeError -> e <> OutsideModel ->
  historial_file w1 = historial_file w.
Proof.
  intros H Hu Ho. rewrite generate_trivia_steps in H.
  run_steps H;
  try (injection H as _ <-; reflexivity); try discriminate.
  unfold after_prompt in H.
  destruct (groq w _) as [raw|]; [|injection H as _ <-; reflexivity].
  destruct (text_of_content raw) as [raw_text|]; [|injection H as _ <-; reflexivity].
  destruct (parse_or_exit raw_text) as [new_data|] eqn:Hparse;
    [|injection H as _ <-; reflexivity].
  apply parse_or_exit_ok, parse_response_shape in Hparse.
  destruct (new_day_record _ _ new_data) as [new_day|];
    [|injection H as _ <-; reflexivity].
  destruct (py_insert_front _ new_day) as [historial'|] eqn:Hins;
    [|injection H as _ <-; reflexivity].
  destruct (save_historial historial' (historial_file w)) as [[[]|e'] file] eqn:Hs.
  - match type of Hins with
    | py_insert_front ?h _ = _ => destruct h; try discriminate
    end.
    injection Hins as <-. rewrite (summary_ok _ _ Hparse) in H. discriminate.
  - injection H as <- _. apply save_historial_raises in Hs as [->| ->]; contradiction.
Qed.


(** X11.  The day number is worked out before the date is compared:
    when the record in front has no ["dia"], or one that is no number, the
    run stops there, with a [KeyError] or a [TypeError], whatever the date of
    the record, and nothing is sent or written. *)
Theorem front_dia_read_first (w : World) (fd : list (pystr * json))
  (rest : list json) :
  no_key (api_key_env w) = false ->
  load_historial (historial_file w) = Ok (JList (JDict fd :: rest)) ->
  (dict_get fd k_dia = None -> generate_trivia w = (Raise KeyError, w)) /\
  (forall d, dict_get fd k_dia = Some d -> int_value d = Raise TypeError ->
             generate_trivia w = (Raise TypeError, w)).
Proof.
  intros Hkey Hload. rewrite generate_trivia_steps, Hkey, Hload.
  cbn [py_len]. unfold next_dia. cbn [py_truthy length Nat.eqb negb bind py_first
                                     py_getitem].
  split.
  - intros ->. reflexivity.
  - intros d -> Hd. cbn [bind]. unfold py_add_one. now rewrite Hd.
Qed.

(** A history that is no list cannot take the new record: whatever the
    model answers, the run fails before the file is opened. *)
Lemma after_prompt_not_list (w : World) (historial : json) (n : Z)
  (prompt : pystr) :
  (forall l, historial <> JList l) ->
  exists e, after_prompt w historial n prompt = (Raise e, add_request w prompt).
Proof.
  intros Hl. unfold after_prompt.
  destruct (groq w prompt) as [raw|]; [|eauto].
  destruct (text_of_content raw); [|eauto].
  destruct (parse_or_exit _); [|eauto].
  destruct (new_day_record _ _ _); [|eauto].
  destruct historial; cbn [py_insert_front]; eauto.
  now destruct (Hl items).
Qed.

(** X12.  The file is rewritten only when it is absent or holds a JSON
    array: with a file that is no JSON, or that holds another JSON value, the
    run fails and leaves the file as it is. *)
Theorem not_a_list_history (w : World) (text : pystr) :
  historial_file w = Some text ->
  (forall l, json_loads text <> Ok (JList l)) ->
  exists e w1, generate_trivia w = (Raise e, w1) /\ historial_file w1 = Some text.
Proof.
  intros Hfile Hl. rewrite generate_trivia_steps.
  destruct (no_key (api_key_env w)); [eauto|].
  rewrite Hfile. cbn [load_historial].
  destruct (json_loads text) as [h|] eqn:E; [|eauto].
  assert (Hh : forall l, h <> JList l) by (intros l ->; now apply (Hl l)).
  destruct (py_len h) eqn:Hlen; [|eauto].
  destruct (next_dia h) as [n|] eqn:En; [|eauto].
  destruct (already_today h _) as [[|]|] eqn:Et; [| |eauto].
  - exfalso. unfold already_today, next_dia in *.
    destruct h as [| | | |[|c s]|l|[|kv d]]; cbn in Hlen, En, Et; try discriminate.
    now destruct (Hh l).
  - destruct (get_previous_questions h _); [|eauto].
    destruct (mapM py_format _) as [texts|]; [|eauto].
    destruct (after_prompt_not_list w h n (build_prompt texts n) Hh) as (e & ->).
    eauto.
Qed.


(* ================================================================== *)
(** * The date *)
(* ================================================================== *)

Ltac split_tests :=
  repeat match goal with
  | |- context [if ?b then _ else _] =>
      let E := fresh in destruct b eqn:E;
      try apply Z.leb_le in E; try apply Z.leb_gt in E;
      try apply Z.ltb_lt in E; try apply Z.ltb_ge in E
  end.

Lemma civil_round_trip (z : Z) : days_from_civil (civil_from_days z) = z.
Proof.
  unfold days_from_civil, civil_from_days. cbv zeta.
  split_tests; Z.div_mod_to_equations; lia.
Qed.

Lemma civil_positive (z : Z) :
  (0 <= z)%Z ->
  let '(y, m, d) := civil_from_days z in
  (1970 <= y /\ 1 <= m <= 12 /\ 1 <= d <= 31)%Z.
Proof.
  intros Hz. unfold civil_from_days. cbv zeta.
  split_tests; Z.div_mod_to_equations; lia.
Qed.

Lemma int_of_digits_zeros (k : nat) (s : pystr) :
  int_of_digits false (repeat 48%N k ++ s) = int_of_digits false s.
Proof. induction k as [|k IH]; [reflexivity|]. exact IH. Qed.

Lemma int_str_nat (n : Z) : (0 <= n)%Z -> int_str n = nat_str (Z.to_N n).
Proof. destruct n; [reflexivity|reflexivity|lia]. Qed.

Lemma zero_pad_value (width : nat) (n : Z) :
  (0 <= n)%Z -> int_of_digits false (zero_pad width n) = n.
Proof.
  intros Hn. unfold zero_pad. rewrite int_of_digits_zeros, int_str_nat by assumption.
  rewrite int_of_digits_nat_str. lia.
Qed.

Lemma zero_pad_digits (width : nat) (n : Z) :
  (0 <= n)%Z -> forallb is_digit (zero_pad width n) = true.
Proof.
  intros Hn. unfold zero_pad. rewrite forallb_app, int_str_nat by assumption.
  unfold nat_str. rewrite uint_codes_digits, andb_true_r.
  induction (width - _); [reflexivity|assumption].
Qed.

Lemma zero_pad_app_inj (w1 w2 : nat) (a b : Z) (x y : pystr) :
  (0 <= a)%Z -> (0 <= b)%Z ->
  match x with [] => True | c :: _ => is_digit c = false end ->
  match y with [] => True | c :: _ => is_digit c = false end ->
  zero_pad w1 a ++ x = zero_pad w2 b ++ y -> a = b /\ x = y.
Proof.
  intros Ha Hb Hx Hy H. apply (f_equal span_digits) in H.
  rewrite !span_digits_all in H by auto using zero_pad_digits.
  injection H as H ->. split; [|reflexivity].
  apply (f_equal (int_of_digits false)) in H.
  now rewrite !zero_pad_value in H.
Qed.

Lemma fecha_of_clock_inj (t1 t2 : Z) :
  (0 <= t1)%Z -> (0 <= t2)%Z ->
  fecha_of_clock t1 = fecha_of_clock t2 -> madrid_day t1 = madrid_day t2.
Proof.
  intros H1 H2 H. unfold fecha_of_clock in H. fold (madrid_day t1) in H.
  fold (madrid_day t2) in H.
  assert (P1 : (0 <= madrid_day t1)%Z)
    by (unfold madrid_day, MADRID_OFFSET; Z.div_mod_to_equations; lia).
  assert (P2 : (0 <= madrid_day t2)%Z)
    by (unfold madrid_day, MADRID_OFFSET; Z.div_mod_to_equations; lia).
  pose proof (civil_positive _ P1) as C1. pose proof (civil_positive _ P2) as C2.
  rewrite <- (civil_round_trip (madrid_day t1)), <- (civil_round_trip (madrid_day t2)).
  destruct (civil_from_days (madrid_day t1)) as [[y1 m1] d1].
  destruct (civil_from_days (madrid_day t2)) as [[y2 m2] d2].
  apply zero_pad_app_inj in H as [-> H]; try lia; try reflexivity.
  cbn [app] in H. injection H as H.
  apply zero_pad_app_inj in H as [-> H]; try lia; try reflexivity.
  cbn [app] in H. injection H as H.
  rewrite <- (app_nil_r (zero_pad 2 d1)), <- (app_nil_r (zero_pad 2 d2)) in H.
  apply zero_pad_app_inj in H as [-> _]; [reflexivity|lia|lia|exact I|exact I].
Qed.

(** X13.  The date tells the day: after 1970, two clocks give the same
    date exactly when they fall in the same day of the fixed offset of one
    hour, which runs from 23:00 UTC to 23:00 UTC; so a record of another day
    in front of the history never makes a run skip. *)
Theorem fecha_tells_the_day (t1 t2 : Z) :
  (0 <= t1)%Z -> (0 <= t2)%Z ->
  (fecha_of_clock t1 = fecha_of_clock t2 <->
   ((t1 + 3600) / 86400 = (t2 + 3600) / 86400)%Z) /\
  (forall fd rest,
      dict_get fd k_fecha = Some (JStr (fecha_of_clock t1)) ->
      ((t1 + 3600) / 86400 <> (t2 + 3600) / 86400)%Z ->
      already_today (JList (JDict fd :: rest)) (fecha_of_clock t2) = Ok false).
Proof.
  intros H1 H2.
  assert (Hiff : fecha_of_clock t1 = fecha_of_clock t2 <->
              ((t1 + 3600) / 86400 = (t2 + 3600) / 86400)%Z).
  { split.
    - apply (fecha_of_clock_inj t1 t2 H1 H2).
    - intros E. unfold fecha_of_clock, MADRID_OFFSET. now rewrite E. }
  split; [exact Hiff|].
  intros fd rest Hf Hd. apply already_today_differs. rewrite Hf.
  intros [= E]. apply Hd, Hiff, E.
Qed.

(* ================================================================== *)
(** * The numbers of the days *)
(* ================================================================== *)



(* ================================================================== *)
(** * More sample runs *)
(* ================================================================== *)

Lemma get_previous_questions_any_cap_witness :
  get_previous_questions (JList long_history) 0
  = Ok (firstn (Z.to_nat (Z.max 0 1)) (all_texts long_history)) /\
  length (firstn (Z.to_nat (Z.max 0 1)) (all_texts long_history)) = 1.
Proof.
  split; [|reflexivity].
  apply (get_previous_questions_any_cap long_history 0).
  vm_compute. reflexivity.
Defined.

Lemma get_previous_questions_stops_at_cap_witness :
  get_previous_questions (JList (long_history ++ [JNull; JInt 5])) 60
  = Ok (firstn (Z.to_nat (Z.max 60 1)) (all_texts long_history)).
Proof.
  apply (get_previous_questions_stops_at_cap long_history [JNull; JInt 5] 60).
  - vm_compute. reflexivity.
  - vm_compute. discriminate.
Defined.

Lemma get_previous_questions_missing_pregunta_witness :
  get_previous_questions
    (JList ([sample_day 3 (lit "2025-11-05")]
              ++ JDict day_without_pregunta :: [JNull])) 60
  = Raise KeyError.
Proof.
  apply (get_previous_questions_missing_pregunta
           [sample_day 3 (lit "2025-11-05")] [JNull]
           [JDict [(k_pregunta, JStr (lit "a"))]] []
           day_without_pregunta [] 60).
  - reflexivity.
  - reflexivity.
  - reflexivity.
  - reflexivity.
  - vm_compute. reflexivity.
Defined.

Lemma build_prompt_mentions_witness :
  (exists a b,
      build_prompt [lit "a"; lit "b"] 3
      = a ++ [10%N] ++ bullet (lit "b") ++ [10%N] ++ b) /\
  str_contains (lit "- Este es el día #" ++ int_str 3 ++ lit " de CulturIA.")
    (build_prompt [lit "a"; lit "b"] 3) = true.
Proof.
  apply (build_prompt_mentions [lit "a"; lit "b"] 3 (lit "b")).
  simpl. auto.
Defined.

Lemma late_fence_rejected_witness :
  parse_response chatty_response = Raise JSONDecodeError.
Proof.
  apply (late_fence_rejected chatty_response); vm_compute; reflexivity.
Defined.

Lemma unclosed_fence_parsed_witness :
  parse_response ([] ++ (fence ++ lit "json" ++ [10%N] ++ sample_response) ++ [])
  = parse_response sample_response /\
  parse_response sample_response = validate sample_data.
Proof.
  apply (unclosed_fence_parsed [] (lit "json") sample_response [] sample_data).
  - reflexivity.
  - reflexivity.
  - simpl. lia.
  - vm_compute. reflexivity.
Defined.

Lemma first_bad_question_reported_witness :
  parse_response (json_dumps (JDict second_question_bad))
  = Raise (AssertionError (message (TwoOrThreeOptions 1))).
Proof.
  apply (first_bad_question_reported (json_dumps (JDict second_question_bad))
           second_question_bad
           [JDict [(k_pregunta, JStr (lit "a"));
                   (k_opciones, JList [JStr (lit "x"); JStr (lit "y")]);
                   (k_respuesta_correcta, JInt 0)]]
           [JInt 7]
           (JDict [(k_pregunta, JStr (lit "b"));
                   (k_opciones, JList [JStr (lit "x"); JStr (lit "y");
                                       JStr (lit "z"); JStr (lit "t")]);
                   (k_respuesta_correcta, JInt 0)])
           (JStr (lit "m"))).
  - vm_compute. reflexivity.
  - reflexivity.
  - reflexivity.
  - reflexivity.
  - reflexivity.
  - reflexivity.
Defined.


Lemma failed_run_keeps_file_witness :
  generate_trivia rejected_run = (Raise (SystemExit 1), after_rejected_run) /\
  historial_file after_rejected_run = historial_file rejected_run.
Proof.
  assert (H : generate_trivia rejected_run
              = (Raise (SystemExit 1), after_rejected_run))
    by (vm_compute; reflexivity).
  split; [exact H|].
  apply (failed_run_keeps_file rejected_run after_rejected_run (SystemExit 1) H);
    discriminate.
Defined.


Lemma front_dia_read_first_witness :
  dict_get record_without_dia k_fecha
  = Some (JStr (fecha_of_clock (clock run_without_dia))) /\
  generate_trivia run_without_dia = (Raise KeyError, run_without_dia).
Proof.
  split; [vm_compute; reflexivity|].
  apply (proj1 (front_dia_read_first run_without_dia record_without_dia []
                  ltac:(reflexivity) ltac:(vm_compute; reflexivity))).
  reflexivity.
Defined.

Lemma not_a_list_history_witness :
  exists e w1,
    generate_trivia run_on_object = (Raise e, w1) /\
    historial_file w1 = Some (lit "{}").
Proof.
  apply (not_a_list_history run_on_object (lit "{}")).
  - reflexivity.
  - intros l. vm_compute. discriminate.
Defined.

Lemma fecha_tells_the_day_witness :
  (fecha_of_clock 1762210799 = fecha_of_clock 1762210800 <->
   ((1762210799 + 3600) / 86400 = (1762210800 + 3600) / 86400)%Z) /\
  (forall fd rest,
      dict_get fd k_fecha = Some (JStr (fecha_of_clock 1762210799)) ->
      ((1762210799 + 3600) / 86400 <> (1762210800 + 3600) / 86400)%Z ->
      already_today (JList (JDict fd :: rest)) (fecha_of_clock 1762210800)
      = Ok false).
Proof.
  apply (fecha_tells_the_day 1762210799 1762210800); lia.
Defined.


